(** * The GraphQL stars crawler ([scripts/crawl_stars_graphql.py])

    A shallow embedding of the crawl loop of [main], of the record
    normaliser inside it, of [upsert_repos_and_snapshots], [write_checkpoint],
    [read_checkpoint] and [safe_sleep], followed by the properties of the
    specification that concern them.

    Conventions of the embedding.
    - A decoded JSON document is a [json] value; Python's [dict.get],
      truth value, [or], [int], [<] and [for] are the functions [dict_get],
      [truthy], [py_or], [py_int], [py_lt] and [py_iter], each raising the
      exception Python raises on a value of the wrong type. Every field
      the query asks for is an Int, a String, a Boolean or an object, so JSON
      numbers are integers here.
    - Durations and instants are rationals: the float literals of the
      script (1.0, 2, 60, 30, 0.5, 0.3, 5) are read as the rationals they
      denote, and no rounding is modelled. [print] is taken to accept
      every argument. [time.sleep] raises OverflowError on a duration it
      cannot convert; this is modelled where the duration is not bounded,
      in the rate governor, and not for the other sleeps, which last 2
      seconds or at most 60.3.
    - Everything the script takes from outside during one pass of the
      [while] loop (the HTTP answer, the random draws, the clocks, whether
      the database accepts a commit) is one [world] record; a run consumes
      a list of them, and says so when the list ends before the loop does.
    - The effects of the script (requests, prints, sleeps, commits) are
      recorded in a trace of [event]s, and the three tables live in a
      [database] value threaded by the monad [M]; an exception that
      escapes [main] ends the run with [Raise]. *)

From Stdlib Require Import Ascii ZArith QArith Qminmax Qpower DecimalString Lia Lqa.
From stdpp Require Import gmap strings list fin_maps.

Close Scope Q_scope.
Open Scope Z_scope.

(** ** Python values and builtins *)

Local Unset Elimination Schemes.
Inductive json : Type :=
| JNull
| JBool (b : bool)
| JInt (z : Z)
| JStr (s : string)
| JArr (items : list json)
| JObj (fields : list (string * json)).
Local Set Elimination Schemes.

Inductive exn : Type :=
| AttributeError
| TypeError
| ValueError
| JSONDecodeError
| DatabaseError
| SystemExit.

Inductive result (A : Type) : Type :=
| Ok (a : A)
| Raise (e : exn).
Arguments Ok {A} a.
Arguments Raise {A} e.

(** [bool(v)] *)
Definition truthy (v : json) : bool :=
  match v with
  | JNull => false
  | JBool b => b
  | JInt z => negb (z =? 0)
  | JStr s => negb (String.eqb s "")
  | JArr items => match items with [] => false | _ => true end
  | JObj fields => match fields with [] => false | _ => true end
  end.

(** The value bound to a key of a decoded object. *)
Fixpoint assoc (k : string) (fields : list (string * json)) : option json :=
  match fields with
  | [] => None
  | (k', v) :: rest => if String.eqb k k' then Some v else assoc k rest
  end.

(** [d.get(k, default)]; only a dict has a [get]. *)
Definition dict_get (d : json) (k : string) (default : json) : result json :=
  match d with
  | JObj fields => Ok (match assoc k fields with Some v => v | None => default end)
  | _ => Raise AttributeError
  end.

(** [a or b] *)
Definition py_or (a b : json) : json := if truthy a then a else b.

(** [v < n] for an integer literal [n]; a bool is an int in Python. *)
Definition py_lt (v : json) (n : Z) : result bool :=
  match v with
  | JInt z => Ok (z <? n)
  | JBool b => Ok ((if b then 1 else 0) <? n)
  | _ => Raise TypeError
  end.

Fixpoint chars (s : string) : list json :=
  match s with
  | EmptyString => []
  | String c rest => JStr (String c EmptyString) :: chars rest
  end.

(** The items [for n in v] ranges over. *)
Definition py_iter (v : json) : result (list json) :=
  match v with
  | JArr items => Ok items
  | JObj fields => Ok (map (fun kv => JStr (fst kv)) fields)
  | JStr s => Ok (chars s)
  | _ => Raise TypeError
  end.

(** [s.replace("Z", "+00:00")] *)
Fixpoint replace_Z (s : string) : string :=
  match s with
  | EmptyString => EmptyString
  | String c rest =>
      if Ascii.eqb c "Z"%char then String.append "+00:00" (replace_Z rest)
      else String c (replace_Z rest)
  end.

(** What [datetime.fromisoformat] returns: an instant, in seconds since
    the epoch, and whether it carries a UTC offset. *)
Record datetime : Type := { instant : Q; aware : bool }.

(** Decimal digits of an integer, as [str] prints it. *)
Definition digits (z : Z) : string :=
  DecimalString.NilZero.string_of_int (Z.to_int z).

(** ** Rows, tables and events *)

(** The dict appended to [rows] for one node. *)
Record row : Type := {
  repo_id : Z;
  github_node_id : json;
  owner : json;
  name : json;
  full_name : string;
  url : json;
  description : json;
  language : json;
  stargazerCount : json;
  updatedAt : json
}.

(** A row of table [repos] without its key [repo_id]: the columns
    written by the upsert. *)
Record repo : Type := {
  node : row;
  last_crawled_at : Q;
  updated_local_at : Q
}.

(** [repos] is keyed by [repo_id], [repo_stars_history] by
    [(repo_id, snapshot_date)], [crawl_checkpoints] by [checkpoint_key]
    (value and [updated_at]). Dates are day numbers. *)
Record database : Type := {
  repos : gmap Z repo;
  repo_stars_history : gmap (Z * Z) json;
  crawl_checkpoints : gmap string (json * Q)
}.

Inductive message : Type :=
| NetworkErrorMsg
| HttpMsg (status : Z)
| GraphQLErrorsMsg (errors : json)
| RateLimitLowMsg (remaining : json) (sleep_seconds : Q)
| MissingDatabaseIdMsg (id : json)
| ProgressMsg (fetched total : Z)
| NoNodesMsg
| NoMorePagesMsg.

Inductive event : Type :=
| Request (first : Z) (after : json)
| Stdout (m : message)
| Sleep (seconds : Q)
| UpsertCommit (rows : list row)
| CheckpointCommit (key : string) (value : json).

(** What [graphql_post] gives: an exception of [requests.post], or a
    response with its status and, when the body decodes, its JSON. *)
Inductive response : Type :=
| NetworkError
| Response (status_code : Z) (body : option json).

(** What one pass of the loop takes from outside.
    - [random1] is the draw of [random.random()] in the [safe_sleep] of a
      failure branch or of the governor's fallback, [random2] the draw in
      the pause between pages (at most one of each per pass);
    - [clock] is [datetime.now(utc)] in the governor, [today] and
      [now_utc] are [date.today()] and [now_utc()] in the upsert, [db_now]
      is [now()] as the database evaluates it for the checkpoint;
    - [sleep_max] is the longest duration [time.sleep] converts on the
      interpreter at hand (CPython keeps a duration as a signed 64-bit
      count of nanoseconds, some 9.2e9 seconds) and raises OverflowError
      beyond;
    - [upsert_commits] and [checkpoint_commits] tell whether the database
      carries the statements and the commit through (connection, types,
      constraints), apart from the duplicate keys modelled below. *)
Record world : Type := {
  fetch : response;
  random1 : Q;
  random2 : Q;
  sleep_max : Q;
  clock : Q;
  today : Z;
  now_utc : Q;
  db_now : Q;
  upsert_commits : bool;
  checkpoint_commits : bool
}.

(** The command line ([--total], [--page-size], [--checkpoint-key]). *)
Record arguments : Type := {
  total : Z;
  page_size_arg : Z;
  checkpoint_key : string
}.

(** The variables of [main] the loop assigns. *)
Record locals : Type := {
  fetched : Z;
  after : json;
  backoff_base : Q
}.

(** What a decoded page leaves in [remaining], [has_next], [endCursor]
    and [rows]. *)
Record page : Type := {
  remaining : json;
  has_next : json;
  endCursor : json;
  rows : list row
}.

(** How one pass of the loop ends: [continue] or the end of the body,
    or [break]. *)
Inductive control : Type :=
| Continue (st : locals)
| Break (st : locals).

(** How a run over a finite list of worlds ends: the loop was left
    ([Done]), or it asked for a pass the list no longer covers
    ([Starved]). An exception ends it with [Raise]. *)
Inductive outcome : Type :=
| Done (st : locals)
| Starved (st : locals).

(** ** The effect monad: trace, database, exceptions *)

Definition M (A : Type) : Type := database -> list event * database * result A.

Definition ret {A} (a : A) : M A := fun db => ([], db, Ok a).

Definition bind {A B} (m : M A) (f : A -> M B) : M B :=
  fun db =>
    match m db with
    | (tr, db', Ok a) =>
        match f a db' with
        | (tr', db'', r) => (tr ++ tr', db'', r)
        end
    | (tr, db', Raise e) => (tr, db', Raise e)
    end.

Definition lift {A} (r : result A) : M A := fun db => ([], db, r).
Definition raise {A} (e : exn) : M A := fun db => ([], db, Raise e).
Definition emit (e : event) : M unit := fun db => ([e], db, Ok tt).
Definition get_db : M database := fun db => ([], db, Ok db).
Definition put_db (db : database) : M unit := fun _ => ([], db, Ok tt).

Notation "x <- m ;; k" := (bind m (fun x => k))
  (at level 100, m at next level, right associativity).
Notation "m ;;; k" := (bind m (fun _ => k))
  (at level 100, right associativity).

Definition print (m : message) : M unit := emit (Stdout m).
Definition sleep (seconds : Q) : M unit := emit (Sleep seconds).

(** [safe_sleep(seconds)], with [r] the value [random.random()] returns. *)
Definition safe_sleep (r : Q) (seconds : Q) : M unit :=
  sleep (seconds + r * (3 # 10))%Q.

(** ** The storage operations *)

(** [execute_values] cuts its argument list into pages of [page_size]
    tuples and sends one INSERT ... ON CONFLICT DO UPDATE per page.
    PostgreSQL rejects such a statement when two of its tuples carry the
    same conflict key; otherwise each tuple replaces or creates the row of
    its key. *)
Fixpoint paginate {A} (fuel : nat) (page_size : nat) (l : list A) : list (list A) :=
  match fuel with
  | O => []
  | S fuel' =>
      match l with
      | [] => []
      | _ => take page_size l :: paginate fuel' page_size (drop page_size l)
      end
  end.

Definition upsert_all `{Countable K} {V} (tuples : list (K * V)) (table : gmap K V)
  : gmap K V :=
  foldl (fun t kv => <[fst kv := snd kv]> t) table tuples.

Fixpoint run_statements `{Countable K} {V} (pages : list (list (K * V)))
    (table : gmap K V) : option (gmap K V) :=
  match pages with
  | [] => Some table
  | page :: rest =>
      if bool_decide (NoDup (map fst page))
      then run_statements rest (upsert_all page table)
      else None
  end.

Definition execute_values `{Countable K} {V} (argslist : list (K * V))
    (page_size : nat) (table : gmap K V) : option (gmap K V) :=
  run_statements (paginate (length argslist) page_size argslist) table.

Definition repo_values (now : Q) (rows : list row) : list (Z * repo) :=
  map (fun r => (repo_id r,
                 {| node := r; last_crawled_at := now; updated_local_at := now |}))
      rows.

Definition snapshot_values (day : Z) (rows : list row) : list (Z * Z * json) :=
  map (fun r => ((repo_id r, day), stargazerCount r)) rows.

(** The two statements of [upsert_repos_and_snapshots] on the tables,
    before the commit. *)
Definition upsert_tables (day : Z) (now : Q) (rows : list row) (db : database)
  : option database :=
  match execute_values (repo_values now rows) 200 (repos db) with
  | None => None
  | Some repos' =>
      match execute_values (snapshot_values day rows) 200 (repo_stars_history db) with
      | None => None
      | Some history' =>
          Some {| repos := repos';
                  repo_stars_history := history';
                  crawl_checkpoints := crawl_checkpoints db |}
      end
  end.

Definition upsert_repos_and_snapshots (w : world) (rows : list row) : M unit :=
  match rows with
  | [] => ret tt
  | _ =>
      db <- get_db ;;
      match upsert_tables (today w) (now_utc w) rows db with
      | None => raise DatabaseError
      | Some db' =>
          if upsert_commits w
          then put_db db' ;;; emit (UpsertCommit rows)
          else raise DatabaseError
      end
  end.

Definition read_checkpoint (key : string) : M json :=
  db <- get_db ;;
  ret (match crawl_checkpoints db !! key with
       | Some (value, _) => value
       | None => JNull
       end).

Definition write_checkpoint (w : world) (key : string) (value : json) : M unit :=
  if checkpoint_commits w
  then
    db <- get_db ;;
    put_db {| repos := repos db;
              repo_stars_history := repo_stars_history db;
              crawl_checkpoints := <[key := (value, db_now w)]> (crawl_checkpoints db) |} ;;;
    emit (CheckpointCommit key value)
  else raise DatabaseError.

(** ** Sample inputs

    Stand-ins for the three library functions, defined on the strings the
    examples use, and a few responses, worlds and tables. *)

Definition sample_fromisoformat (s : string) : option datetime :=
  if String.eqb s "2024-01-01T00:00:00+00:00"
  then Some {| instant := 1704067200; aware := true |}
  else if String.eqb s "2024-01-01T00:00:00"
  then Some {| instant := 1704067200; aware := false |}
  else if String.eqb s "9999-12-31T23:59:59+00:00"
  then Some {| instant := 253402300799; aware := true |}
  else None.

Definition sample_int_of_str (s : string) : option Z :=
  if String.eqb s "0" then Some 0 else if String.eqb s "42" then Some 42 else None.

Definition sample_repr (v : json) : string := "{...}".

Definition sample_args : arguments :=
  {| total := 250; page_size_arg := 100; checkpoint_key := "global_search_cursor" |}.

Definition sample_node (dbid : json) (login name : string) : json :=
  JObj [("id", JStr "MDEwOlJlcG9zaXRvcnk=");
        ("databaseId", dbid);
        ("name", JStr name);
        ("owner", JObj [("login", JStr login)]);
        ("url", JStr "https://github.com/");
        ("stargazerCount", JInt 7)].

Definition sample_data (rateLimit : list (string * json)) (nodes : list json)
    (hasNextPage : bool) (endCursor : json) : json :=
  JObj [("data",
         JObj (rateLimit ++
               [("search",
                 JObj [("repositoryCount", JInt 1000);
                       ("pageInfo", JObj [("hasNextPage", JBool hasNextPage);
                                          ("endCursor", endCursor)]);
                       ("nodes", JArr nodes)])]))].

Definition sample_rateLimit (remaining : Z) (resetAt : json) : list (string * json) :=
  [("rateLimit", JObj [("limit", JInt 5000); ("cost", JInt 1);
                       ("remaining", JInt remaining); ("resetAt", resetAt)])].

Definition sample_world (f : response) : world :=
  {| fetch := f;
     random1 := 1 # 2;
     random2 := 1 # 4;
     sleep_max := 9223372036;
     clock := 1704067100;
     today := 19723;
     now_utc := 1704067100;
     db_now := 1704067101;
     upsert_commits := true;
     checkpoint_commits := true |}.

Definition empty_db : database :=
  {| repos := ∅; repo_stars_history := ∅; crawl_checkpoints := ∅ |}.

Definition start : locals :=
  {| fetched := 0; after := JNull; backoff_base := 1 |}.

(** The same day, one minute later. *)
Definition later_world : world :=
  {| fetch := NetworkError;
     random1 := 1 # 2;
     random2 := 1 # 4;
     sleep_max := 9223372036;
     clock := 1704067160;
     today := 19723;
     now_utc := 1704067160;
     db_now := 1704067161;
     upsert_commits := true;
     checkpoint_commits := true |}.

Definition sample_row (id : Z) (login name : string) : row :=
  {| repo_id := id;
     github_node_id := JStr "MDEwOlJlcG9zaXRvcnk=";
     owner := JStr login;
     name := JStr name;
     full_name := login +:+ "/" +:+ name;
     url := JStr "https://github.com/";
     description := JNull;
     language := JNull;
     stargazerCount := JInt 7;
     updatedAt := JNull |}.

(** ** Raw entries *)

(** [n.get(k)] on the fields of an object. *)
Definition field (k : string) (fields : list (string * json)) : json :=
  match assoc k fields with
  | Some v => v
  | None => JNull
  end.

(** A value [(v or {}).get] accepts: an object, or anything falsy. *)
Definition dict_or_falsy (v : json) : bool :=
  match v with
  | JObj _ => true
  | _ => negb (truthy v)
  end.

(** [n.get('id')], which the warning prints. *)
Definition entry_id (n : json) : json :=
  match n with
  | JObj fields => field "id" fields
  | _ => JNull
  end.

(** The [databaseId] of an entry when it is an integer, 0 otherwise. *)
Definition identifier (n : json) : Z :=
  match n with
  | JObj fields =>
      match assoc "databaseId" fields with
      | Some (JInt z) => z
      | _ => 0
      end
  | _ => 0
  end.

(** An entry the normaliser turns into a record: an object whose
    [databaseId] is a non-zero integer and whose [owner] and
    [primaryLanguage] are objects, null or absent. *)
Definition valid_entry (n : json) : bool :=
  match n with
  | JObj fields =>
      dict_or_falsy (field "owner" fields)
      && dict_or_falsy (field "primaryLanguage" fields)
      && match assoc "databaseId" fields with
         | Some (JInt z) => negb (z =? 0)
         | _ => false
         end
  | _ => false
  end.

(** A non-empty entry whose [databaseId] is null or absent. *)
Definition null_identifier (n : json) : bool :=
  match n with
  | JObj fields =>
      truthy n
      && dict_or_falsy (field "owner" fields)
      && match assoc "databaseId" fields with
         | None | Some JNull => true
         | _ => false
         end
  | _ => false
  end.

(** The [databaseId] of an entry has the type the schema gives it: an
    integer, or null, or it is absent. *)
Definition numeric_identifier (n : json) : bool :=
  match n with
  | JObj fields =>
      match assoc "databaseId" fields with
      | None | Some JNull | Some (JInt _) => true
      | _ => false
      end
  | _ => true
  end.

(** The entries of a response, as the loop over [nodes] sees them. *)
Definition page_items (data : json) : result (list json) :=
  match dict_get data "data" (JObj []) with
  | Ok d =>
      match dict_get d "search" (JObj []) with
      | Ok search =>
          match dict_get search "nodes" (JArr []) with
          | Ok nodes => py_iter nodes
          | Raise e => Raise e
          end
      | Raise e => Raise e
      end
  | Raise e => Raise e
  end.

(** ** Trace properties *)

(** Reads a trace from left to right and accepts it when every
    checkpoint commit comes after an upsert commit with no request in
    between, that is, within the same pass of the loop. [committed] tells
    whether the pass read so far has committed its batch. *)
Fixpoint checkpoints_follow_commits (committed : bool) (tr : list event) : bool :=
  match tr with
  | [] => true
  | Request _ _ :: tr' => checkpoints_follow_commits false tr'
  | UpsertCommit _ :: tr' => checkpoints_follow_commits true tr'
  | CheckpointCommit _ _ :: tr' => committed && checkpoints_follow_commits committed tr'
  | _ :: tr' => checkpoints_follow_commits committed tr'
  end.

Definition sample_page : page :=
  {| remaining := JInt 4000;
     has_next := JBool true;
     endCursor := JStr "Y3Vyc29yOjI=";
     rows := [sample_row 11 "octocat" "hello"] |}.

(** A page with one good entry and one whose identifier is 0. *)
Definition sample_page_data : json :=
  sample_data (sample_rateLimit 4000 (JStr "2024-01-01T00:00:00Z"))
    [sample_node (JInt 11) "octocat" "hello"; sample_node (JInt 0) "ghost" "gone"]
    true (JStr "Y3Vyc29yOjI=").


(** A page with a quota between the two thresholds. *)
Definition mid_quota_data : json :=
  sample_data (sample_rateLimit 800 (JStr "2024-01-01T00:00:00Z"))
    [sample_node (JInt 11) "octocat" "hello"] true (JStr "Y3Vyc29yOjI=").

(** A 200 response with an error list beside its data. *)
Definition errors_data : json :=
  JObj [("errors", JArr [JObj [("message", JStr "timeout")]]);
        ("data", JObj [("search", JObj [("nodes",
                                          JArr [sample_node (JInt 11) "octocat" "hello"])])])].

(** A network error, then the sample page. *)
Definition sample_run : list world :=
  [sample_world NetworkError; sample_world (Response 200 (Some sample_page_data))].

Definition sample_end : locals :=
  {| fetched := 1; after := JStr "Y3Vyc29yOjI="; backoff_base := 1 |}.

(** The value the last tuple with key [k] carries, if any: what a
    sequence of upserts leaves under [k]. *)
Fixpoint latest `{EqDecision K} {V} (k : K) (tuples : list (K * V)) : option V :=
  match tuples with
  | [] => None
  | (k', v) :: rest =>
      match latest k rest with
      | Some v' => Some v'
      | None => if decide (k = k') then Some v else None
      end
  end.

(** Whether PostgreSQL accepts the statements [execute_values] issues for
    tuples with these keys: no key twice in one page. *)
Definition accepted `{EqDecision K} (page_size : nat) (keys : list K) : bool :=
  forallb (fun p => bool_decide (NoDup p)) (paginate (length keys) page_size keys).

Section Crawler.

(** Python library functions the script calls and that are left
    abstract: [datetime.fromisoformat] (None when it raises ValueError),
    [int] on a string (None when it raises ValueError) and the [repr] of a
    list or dict inside an f-string. *)
Variable fromisoformat : string -> option datetime.
Variable int_of_str : string -> option Z.
Variable repr : json -> string.

(** [int(v)] *)
Definition py_int (v : json) : result Z :=
  match v with
  | JInt z => Ok z
  | JBool b => Ok (if b then 1 else 0)
  | JStr s => match int_of_str s with Some z => Ok z | None => Raise ValueError end
  | _ => Raise TypeError
  end.

(** [f"{v}"] *)
Definition py_format (v : json) : string :=
  match v with
  | JNull => "None"
  | JBool b => if b then "True" else "False"
  | JInt z => digits z
  | JStr s => s
  | _ => repr v
  end.

(** ** The record normaliser (the loop over [nodes] in [main]) *)

Definition parse_node (n : json) : M (option row) :=
  if negb (truthy n) then ret None
  else
    o <- lift (dict_get n "owner" JNull) ;;
    owner <- lift (dict_get (py_or o (JObj [])) "login" JNull) ;;
    name <- lift (dict_get n "name" JNull) ;;
    dbid <- lift (dict_get n "databaseId" JNull) ;;
    if negb (truthy dbid) then
      id <- lift (dict_get n "id" JNull) ;;
      print (MissingDatabaseIdMsg id) ;;;
      ret None
    else
      repo_id <- lift (py_int dbid) ;;
      id <- lift (dict_get n "id" JNull) ;;
      url <- lift (dict_get n "url" JNull) ;;
      description <- lift (dict_get n "description" JNull) ;;
      pl <- lift (dict_get n "primaryLanguage" JNull) ;;
      language <- lift (dict_get (py_or pl (JObj [])) "name" JNull) ;;
      stars <- lift (dict_get n "stargazerCount" JNull) ;;
      updatedAt <- lift (dict_get n "updatedAt" JNull) ;;
      ret (Some {| repo_id := repo_id;
                   github_node_id := id;
                   owner := owner;
                   name := name;
                   full_name := py_format owner +:+ "/" +:+ py_format name;
                   url := url;
                   description := description;
                   language := language;
                   stargazerCount := py_or stars (JInt 0);
                   updatedAt := updatedAt |}).

Fixpoint parse_nodes (nodes : list json) (rows : list row) : M (list row) :=
  match nodes with
  | [] => ret rows
  | n :: rest =>
      o <- parse_node n ;;
      parse_nodes rest (match o with Some r => rows ++ [r] | None => rows end)
  end.

(** ** The rate governor (the block under [if remaining < 500])

    Everything after [resetAt = ...] stands in a [try]: a [resetAt] that
    is no string, that does not parse or that carries no offset, and a
    duration [time.sleep] refuses, all end in the [except] branch, which
    calls [safe_sleep(30)]. The message is printed before [time.sleep] is
    called, so it stays in the trace when the sleep is refused. *)

Definition rate_limit_wait (w : world) (rl remaining : json) : M unit :=
  resetAt <- lift (dict_get rl "resetAt" JNull) ;;
  match resetAt with
  | JStr s =>
      match fromisoformat (replace_Z s) with
      | Some reset_ts =>
          if aware reset_ts then
            let sleep_seconds := (instant reset_ts - clock w + 5)%Q in
            if negb (Qle_bool sleep_seconds 0) then
              print (RateLimitLowMsg remaining sleep_seconds) ;;;
              if Qle_bool (Qmax 0 sleep_seconds) (sleep_max w)
              then sleep (Qmax 0 sleep_seconds)
              else safe_sleep (random1 w) 30
            else ret tt
          else safe_sleep (random1 w) 30
      | None => safe_sleep (random1 w) 30
      end
  | _ => safe_sleep (random1 w) 30
  end.

(** ** The crawl loop *)

Variable args : arguments.

Definition page_size : Z := Z.min 100 (Z.max 10 (page_size_arg args)).

Definition escalate (st : locals) : locals :=
  {| fetched := fetched st;
     after := after st;
     backoff_base := Qmin (backoff_base st * 2) 60 |}.

Definition retryable_status (status_code : Z) : bool :=
  (status_code =? 502) || (status_code =? 503) || (status_code =? 504)
  || (status_code =? 429).

Definition resp_json (body : option json) : result json :=
  match body with
  | Some data => Ok data
  | None => Raise JSONDecodeError
  end.

(** From [rl = ...] to the end of the loop over [nodes]: quota, rate
    governor, page fields, normalised rows. *)
Definition read_page (w : world) (data : json) : M page :=
  d <- lift (dict_get data "data" (JObj [])) ;;
  rl <- lift (dict_get d "rateLimit" (JObj [])) ;;
  remaining <- lift (dict_get rl "remaining" (JInt 5000)) ;;
  low <- lift (py_lt remaining 500) ;;
  (if low then rate_limit_wait w rl remaining else ret tt) ;;;
  search <- lift (dict_get d "search" (JObj [])) ;;
  nodes <- lift (dict_get search "nodes" (JArr [])) ;;
  pageInfo <- lift (dict_get search "pageInfo" (JObj [])) ;;
  has_next <- lift (dict_get pageInfo "hasNextPage" (JBool false)) ;;
  endCursor <- lift (dict_get pageInfo "endCursor" JNull) ;;
  items <- lift (py_iter nodes) ;;
  rows <- parse_nodes items [] ;;
  ret {| remaining := remaining; has_next := has_next;
         endCursor := endCursor; rows := rows |}.

(** From [if rows:] to the end of the loop body. *)
Definition commit_page (w : world) (st : locals) (pg : page) : M control :=
  match rows pg with
  | [] => print NoNodesMsg ;;; ret (Break st)
  | _ =>
      upsert_repos_and_snapshots w (rows pg) ;;;
      let fetched' := fetched st + Z.of_nat (length (rows pg)) in
      print (ProgressMsg fetched' (total args)) ;;;
      after' <- (if truthy (endCursor pg)
                 then write_checkpoint w (checkpoint_key args) (endCursor pg) ;;;
                      ret (endCursor pg)
                 else ret (after st)) ;;
      let st' := {| fetched := fetched'; after := after'; backoff_base := 1 |} in
      if negb (truthy (has_next pg)) then print NoMorePagesMsg ;;; ret (Break st')
      else
        pause <- lift (py_lt (remaining pg) 1000) ;;
        (if pause then safe_sleep (random2 w) (1 # 2) else ret tt) ;;;
        ret (Continue st')
  end.

(** The loop body after [resp.json()] showed no error list. *)
Definition process_page (w : world) (st : locals) (data : json) : M control :=
  pg <- read_page w data ;;
  commit_page w st pg.

(** One pass of [while fetched < args.total]. *)
Definition loop_body (w : world) (st : locals) : M control :=
  emit (Request page_size (after st)) ;;;
  match fetch w with
  | NetworkError =>
      print NetworkErrorMsg ;;;
      safe_sleep (random1 w) (backoff_base st) ;;;
      ret (Continue (escalate st))
  | Response status_code body =>
      if negb (status_code =? 200) then
        print (HttpMsg status_code) ;;;
        if retryable_status status_code then
          safe_sleep (random1 w) (backoff_base st) ;;;
          ret (Continue (escalate st))
        else
          sleep 2 ;;;
          ret (Continue st)
      else
        data <- lift (resp_json body) ;;
        errors <- lift (dict_get data "errors" JNull) ;;
        if truthy errors then
          print (GraphQLErrorsMsg errors) ;;;
          safe_sleep (random1 w) 2 ;;;
          ret (Continue st)
        else process_page w st data
  end.

Fixpoint crawl (ws : list world) (st : locals) : M outcome :=
  if fetched st <? total args then
    match ws with
    | [] => ret (Starved st)
    | w :: ws' =>
        c <- loop_body w st ;;
        match c with
        | Continue st' => crawl ws' st'
        | Break st' => ret (Done st')
        end
    end
  else ret (Done st).

(** [main], from the token check to the end of the loop, on the values
    [parser.parse_args()] has produced. What comes before the check (the
    parsing of the command line, which raises SystemExit itself on a
    missing [--pg-dsn]) and the failures of [psycopg2.connect] and of the
    SELECT of [read_checkpoint] are outside the embedding. *)
Definition main (token : option string) (ws : list world) : M outcome :=
  match token with
  | None => raise SystemExit
  | Some t =>
      if negb (truthy (JStr t)) then raise SystemExit
      else
        after <- read_checkpoint (checkpoint_key args) ;;
        crawl ws {| fetched := 0; after := after; backoff_base := 1 |}
  end.

(** ** Notions the statements use *)

(** [emits P m]: every event [m] records satisfies [P];
    [keeps_db m]: [m] leaves the tables as they are. Both are preserved
    by [bind]. *)
Definition emits {A} (P : event -> Prop) (m : M A) : Prop :=
  forall db, Forall P (m db).1.1.

Definition keeps_db {A} (m : M A) : Prop :=
  forall db, (m db).1.2 = db.

Definition is_print (e : event) : Prop :=
  match e with Stdout _ => True | _ => False end.

(** An event that is no commit and no request. *)
Definition is_local (e : event) : Prop :=
  match e with Stdout _ | Sleep _ => True | _ => False end.


(** The second half of the loop body, run on a database. *)
Definition finish_page (w : world) (pg : page) (st' : locals) (db' : database)
    (tr : list event) : list event * database * result control :=
  if negb (truthy (has_next pg)) then (tr ++ [Stdout NoMorePagesMsg], db', Ok (Break st'))
  else
    match py_lt (remaining pg) 1000 with
    | Raise e => (tr, db', Raise e)
    | Ok true => (tr ++ [Sleep ((1 # 2) + random2 w * (3 # 10))%Q], db', Ok (Continue st'))
    | Ok false => (tr, db', Ok (Continue st'))
    end.

(** A failure the loop answers with the escalating backoff: an
    exception of [graphql_post], or one of the statuses 502, 503, 504, 429. *)
Definition retryable (f : response) : bool :=
  match f with
  | NetworkError => true
  | Response status_code _ => negb (status_code =? 200) && retryable_status status_code
  end.

(** An HTTP status other than 200 and outside the retryable ones. *)
Definition client_error (f : response) : bool :=
  match f with
  | NetworkError => false
  | Response status_code _ =>
      negb (status_code =? 200) && negb (retryable_status status_code)
  end.

Definition failure_message (f : response) : message :=
  match f with
  | NetworkError => NetworkErrorMsg
  | Response status_code _ => HttpMsg status_code
  end.





Definition nonzero_id (r : row) : Prop := repo_id r <> 0.

(** What a pass can do to the checkpoint table: nothing, or write the
    end cursor of the page whose rows it has just committed. *)
Definition checkpoint_written (w : world) (st : locals) (db : database)
    (out : list event * database * result control) : Prop :=
  exists data tr1 pg dbu pre post,
    fetch w = Response 200 (Some data)
    /\ read_page w data db = (tr1, db, Ok pg)
    /\ upsert_tables (today w) (now_utc w) (rows pg) db = Some dbu
    /\ upsert_commits w = true
    /\ out.1.1 = pre ++ UpsertCommit (rows pg)
                    :: Stdout (ProgressMsg (fetched st + Z.of_nat (length (rows pg)))
                                           (total args))
                    :: CheckpointCommit (checkpoint_key args) (endCursor pg) :: post
    /\ out.1.2 = {| repos := repos dbu;
                     repo_stars_history := repo_stars_history dbu;
                     crawl_checkpoints :=
                       <[checkpoint_key args := (endCursor pg, db_now w)]>
                         (crawl_checkpoints db) |}.

(** [loop_exits ws st db]: the run over [ws] from [st] and [db] leaves
    the loop. The first three rules are the three ways out: the target is
    reached at the head of the loop; a page, read without an exception,
    yields no record; a page whose records were committed (and whose
    cursor, if it has one, was stored) reports no next page. The fourth
    rule lets a pass that continues come first. *)
Inductive loop_exits : list world -> locals -> database -> Prop :=
| exit_target ws st db :
    total args <= fetched st ->
    loop_exits ws st db
| exit_no_records w ws st db data errors tr pg :
    fetched st < total args ->
    fetch w = Response 200 (Some data) ->
    dict_get data "errors" JNull = Ok errors ->
    truthy errors = false ->
    read_page w data db = (tr, db, Ok pg) ->
    rows pg = [] ->
    loop_exits (w :: ws) st db
| exit_no_next_page w ws st db data errors tr pg dbu :
    fetched st < total args ->
    fetch w = Response 200 (Some data) ->
    dict_get data "errors" JNull = Ok errors ->
    truthy errors = false ->
    read_page w data db = (tr, db, Ok pg) ->
    upsert_tables (today w) (now_utc w) (rows pg) db = Some dbu ->
    upsert_commits w = true ->
    (truthy (endCursor pg) = true -> checkpoint_commits w = true) ->
    truthy (has_next pg) = false ->
    loop_exits (w :: ws) st db
| exit_later w ws st db tr db' st' :
    fetched st < total args ->
    loop_body w st db = (tr, db', Ok (Continue st')) ->
    loop_exits ws st' db' ->
    loop_exits (w :: ws) st db.

(** What [read_checkpoint] finds under a key. *)
Definition stored_cursor (db : database) (key : string) : json :=
  match crawl_checkpoints db !! key with
  | Some (value, _) => value
  | None => JNull
  end.

(** The state a finished run hands back. *)
Definition final (out : outcome) : locals :=
  match out with
  | Done st => st
  | Starved st => st
  end.

Definition state_of (c : control) : locals :=
  match c with
  | Continue st => st
  | Break st => st
  end.

(** The durations a trace sleeps, in order. *)
Fixpoint sleeps (tr : list event) : list Q :=
  match tr with
  | [] => []
  | Sleep seconds :: tr' => seconds :: sleeps tr'
  | _ :: tr' => sleeps tr'
  end.

(** The number of rows a trace commits. *)
Fixpoint committed_rows (tr : list event) : Z :=
  match tr with
  | [] => 0
  | UpsertCommit batch :: tr' => Z.of_nat (length batch) + committed_rows tr'
  | _ :: tr' => committed_rows tr'
  end.

(** A request asks for between 10 and 100 entries. *)
Definition request_in_bounds (e : event) : Prop :=
  match e with
  | Request first _ => 10 <= first <= 100
  | _ => True
  end.

Definition not_request (e : event) : Prop :=
  match e with
  | Request _ _ => False
  | _ => True
  end.

(** [db'] holds every key of the catalog and of the history that [db]
    holds, and the same checkpoint under every key but [key]. *)
Definition extends (key : string) (db db' : database) : Prop :=
  dom (repos db) ⊆ dom (repos db')
  /\ dom (repo_stars_history db) ⊆ dom (repo_stars_history db')
  /\ forall k, k <> key -> crawl_checkpoints db' !! k = crawl_checkpoints db !! k.

(** A response that is no success: an exception of the transport or a
    status other than 200. *)
Definition failed (f : response) : bool :=
  match f with
  | NetworkError => true
  | Response status_code _ => negb (status_code =? 200)
  end.

(** The backoff lies between the base and the cap. *)
Definition backoff_in_range (st : locals) : Prop :=
  (1 <= backoff_base st /\ backoff_base st <= 60)%Q.



(** [grows key m]: the database [m] leaves extends the one it found. *)
Definition grows {A} (key : string) (m : M A) : Prop :=
  forall db, extends key db (m db).1.2.

(** ** The storage operations on maps *)

Section Storage.
Context `{Countable K} {V : Type}.
Implicit Types (t : gmap K V) (tuples : list (K * V)) (k : K).

Lemma upsert_all_cons k (v : V) tuples t :
  upsert_all ((k, v) :: tuples) t = upsert_all tuples (<[k := v]> t).
Proof. reflexivity. Qed.

Lemma lookup_upsert_all tuples t k :
  upsert_all tuples t !! k =
  match latest k tuples with
  | Some v => Some v
  | None => t !! k
  end.
Proof.
  revert t. induction tuples as [|[k' v] tuples IH]; intros t; [reflexivity|].
  rewrite upsert_all_cons, IH. simpl.
  destruct (latest k tuples) as [v'|]; [reflexivity|].
  destruct (decide (k = k')) as [->|Hne].
  - apply lookup_insert_eq.
  - apply lookup_insert_ne. congruence.
Qed.

Lemma upsert_all_app tuples1 tuples2 t :
  upsert_all (tuples1 ++ tuples2) t = upsert_all tuples2 (upsert_all tuples1 t).
Proof. apply foldl_app. Qed.

Lemma latest_None k tuples : latest k tuples = None <-> k ∉ map fst tuples.
Proof.
  induction tuples as [|[k' v] tuples IH]; simpl.
  - split; [intros _; apply not_elem_of_nil|reflexivity].
  - rewrite not_elem_of_cons, <- IH.
    destruct (latest k tuples); destruct (decide (k = k')); split;
      try discriminate; try tauto; intros [? ?]; congruence.
Qed.

Lemma latest_NoDup k (v : V) tuples :
  NoDup (map fst tuples) -> (k, v) ∈ tuples -> latest k tuples = Some v.
Proof.
  induction tuples as [|[k' v'] tuples IH]; simpl; intros Hnd Hin.
  - apply elem_of_nil in Hin. contradiction.
  - apply NoDup_cons in Hnd as [Hk' Hnd].
    apply elem_of_cons in Hin as [Heq|Hin].
    + injection Heq as -> ->.
      apply latest_None in Hk'. rewrite Hk'.
      destruct (decide (k' = k')); congruence.
    + rewrite (IH Hnd Hin). reflexivity.
Qed.

Lemma upsert_all_twice tuples t :
  upsert_all tuples (upsert_all tuples t) = upsert_all tuples t.
Proof.
  apply map_eq. intros k. rewrite !lookup_upsert_all.
  destruct (latest k tuples); reflexivity.
Qed.

Lemma concat_paginate (fuel n : nat) (l : list (K * V)) :
  (length l <= fuel)%nat -> (0 < n)%nat -> concat (paginate fuel n l) = l.
Proof.
  revert l. induction fuel as [|fuel IH]; intros l Hlen Hn.
  - destruct l; [reflexivity|simpl in Hlen; lia].
  - destruct l as [|x l]; [reflexivity|].
    change (paginate (S fuel) n (x :: l))
      with (take n (x :: l) :: paginate fuel n (drop n (x :: l))).
    simpl concat. rewrite IH.
    + apply take_drop.
    + rewrite length_drop. simpl in *. lia.
    + exact Hn.
Qed.

Lemma paginate_keys (fuel n : nat) tuples :
  paginate fuel n (map fst tuples) = map (map fst) (paginate fuel n tuples).
Proof.
  revert tuples. induction fuel as [|fuel IH]; intros tuples; [reflexivity|].
  destruct tuples as [|x tuples]; [reflexivity|].
  change (paginate (S fuel) n (map fst (x :: tuples)))
    with (take n (map fst (x :: tuples))
            :: paginate fuel n (drop n (map fst (x :: tuples)))).
  change (paginate (S fuel) n (x :: tuples))
    with (take n (x :: tuples) :: paginate fuel n (drop n (x :: tuples))).
  simpl map at 3.
  rewrite <- fmap_take, <- fmap_drop. f_equal. apply IH.
Qed.

Lemma run_statements_spec (pages : list (list (K * V))) t :
  run_statements pages t =
  if forallb (fun p => bool_decide (NoDup p)) (map (map fst) pages)
  then Some (upsert_all (concat pages) t)
  else None.
Proof.
  revert t. induction pages as [|p pages IH]; intros t; [reflexivity|].
  simpl. destruct (bool_decide (NoDup (map fst p))); [|reflexivity].
  rewrite IH, upsert_all_app. reflexivity.
Qed.

Lemma execute_values_spec tuples (n : nat) t :
  (0 < n)%nat ->
  execute_values tuples n t =
  if accepted n (map fst tuples) then Some (upsert_all tuples t) else None.
Proof.
  intros Hn. unfold execute_values, accepted.
  rewrite run_statements_spec, length_map, paginate_keys.
  rewrite concat_paginate by (exact Hn || lia). reflexivity.
Qed.

End Storage.

Lemma accepted_NoDup `{EqDecision K} (n : nat) (keys : list K) :
  NoDup keys -> accepted n keys = true.
Proof.
  unfold accepted. generalize (length keys) as fuel. intros fuel. revert keys.
  induction fuel as [|fuel IH]; intros keys Hnd; [reflexivity|].
  destruct keys as [|x keys]; [reflexivity|].
  change (paginate (S fuel) n (x :: keys))
    with (take n (x :: keys) :: paginate fuel n (drop n (x :: keys))).
  rewrite <- (take_drop n (x :: keys)) in Hnd.
  apply NoDup_app in Hnd as (Ht & _ & Hd).
  simpl. rewrite (bool_decide_eq_true_2 _ Ht). apply IH. exact Hd.
Qed.

(** ** Reasoning about the monad *)

Lemma bind_lift {A B} (r : result A) (f : A -> M B) (db : database) :
  bind (lift r) f db =
  match r with
  | Ok x => f x db
  | Raise e => ([], db, Raise e)
  end.
Proof.
  unfold bind, lift. destruct r as [x|e]; [|reflexivity].
  destruct (f x db) as [[tr db'] r]. reflexivity.
Qed.

Lemma bind_ret {A B} (x : A) (f : A -> M B) (db : database) :
  bind (ret x) f db = f x db.
Proof.
  unfold bind, ret. destruct (f x db) as [[tr db'] r]. reflexivity.
Qed.

Lemma bind_emit {B} (e : event) (f : unit -> M B) (db : database) :
  bind (emit e) f db =
  let '(tr, db', r) := f tt db in (e :: tr, db', r).
Proof. reflexivity. Qed.

Lemma bind_run {A B} (m : M A) (f : A -> M B) (db : database) tr db' x :
  m db = (tr, db', Ok x) ->
  bind m f db = let '(tr', db'', r) := f x db' in (tr ++ tr', db'', r).
Proof. intros Hm. unfold bind. rewrite Hm. reflexivity. Qed.

Lemma bind_assoc {A B C} (m : M A) (f : A -> M B) (g : B -> M C) (db : database) :
  bind (bind m f) g db = bind m (fun x => bind (f x) g) db.
Proof.
  unfold bind. destruct (m db) as [[tr1 db1] [x|e]]; [|reflexivity].
  destruct (f x db1) as [[tr2 db2] [y|e]]; [|reflexivity].
  destruct (g y db2) as [[tr3 db3] r]. rewrite app_assoc. reflexivity.
Qed.

Lemma bind_ext {A B} (m : M A) (f g : A -> M B) (db : database) :
  (forall x db', f x db' = g x db') -> bind m f db = bind m g db.
Proof.
  intros Hfg. unfold bind. destruct (m db) as [[tr1 db1] [x|e]]; [|reflexivity].
  rewrite Hfg. reflexivity.
Qed.

Lemma bind_trace_prefix {A B} (m : M A) (f : A -> M B) (db : database) :
  exists tail, (bind m f db).1.1 = (m db).1.1 ++ tail.
Proof.
  unfold bind. destruct (m db) as [[tr db'] [x|e]].
  - destruct (f x db') as [[tr' db''] r]. exists tr'. reflexivity.
  - exists []. simpl. rewrite app_nil_r. reflexivity.
Qed.

Lemma emits_bind {A B} P (m : M A) (f : A -> M B) :
  emits P m -> (forall x, emits P (f x)) -> emits P (bind m f).
Proof.
  intros Hm Hf db. unfold bind. specialize (Hm db).
  destruct (m db) as [[tr db'] [x|e]]; [|exact Hm].
  specialize (Hf x db'). destruct (f x db') as [[tr' db''] r].
  simpl in *. apply Forall_app. split; assumption.
Qed.

Lemma emits_lift {A} P (r : result A) : emits P (lift r).
Proof. intros db. constructor. Qed.

Lemma emits_ret {A} P (x : A) : emits P (ret x).
Proof. intros db. constructor. Qed.

Lemma emits_raise {A} P (e : exn) : emits P (@raise A e).
Proof. intros db. constructor. Qed.

Lemma emits_emit (P : event -> Prop) (e : event) : P e -> emits P (emit e).
Proof. intros He db. repeat constructor. exact He. Qed.

Lemma emits_get_db P : emits P get_db.
Proof. intros db. constructor. Qed.

Lemma emits_put_db P db' : emits P (put_db db').
Proof. intros db. constructor. Qed.

Lemma keeps_bind {A B} (m : M A) (f : A -> M B) :
  keeps_db m -> (forall x, keeps_db (f x)) -> keeps_db (bind m f).
Proof.
  intros Hm Hf db. unfold bind. specialize (Hm db).
  destruct (m db) as [[tr db'] [x|e]]; [|exact Hm].
  specialize (Hf x db'). destruct (f x db') as [[tr' db''] r].
  simpl in *. congruence.
Qed.

Lemma keeps_lift {A} (r : result A) : keeps_db (lift r).
Proof. intros db. reflexivity. Qed.

Lemma keeps_ret {A} (x : A) : keeps_db (ret x).
Proof. intros db. reflexivity. Qed.

Lemma keeps_emit (e : event) : keeps_db (emit e).
Proof. intros db. reflexivity. Qed.

Ltac step_effect :=
  first
    [ apply emits_ret | apply emits_lift | apply emits_raise
    | apply emits_get_db | apply emits_put_db
    | apply keeps_ret | apply keeps_lift | apply keeps_emit
    | apply emits_emit; simpl; tauto
    | apply emits_bind; [|intros ?] | apply keeps_bind; [|intros ?]
    | match goal with
      | |- emits _ (if ?b then _ else _) => destruct b
      | |- keeps_db (if ?b then _ else _) => destruct b
      | |- emits _ (match ?x with _ => _ end) => destruct x
      | |- keeps_db (match ?x with _ => _ end) => destruct x
      end ].

Ltac effects := repeat step_effect.

Lemma parse_node_prints (n : json) : emits is_print (parse_node n).
Proof. unfold parse_node, print. effects. Qed.

Lemma parse_node_keeps (n : json) : keeps_db (parse_node n).
Proof. unfold parse_node, print. effects. Qed.

Lemma parse_nodes_prints (nodes : list json) (acc : list row) :
  emits is_print (parse_nodes nodes acc).
Proof.
  revert acc. induction nodes as [|n nodes IH]; intros acc; simpl.
  - apply emits_ret.
  - apply emits_bind; [apply parse_node_prints|]. intros o. apply IH.
Qed.

Lemma parse_nodes_keeps (nodes : list json) (acc : list row) :
  keeps_db (parse_nodes nodes acc).
Proof.
  revert acc. induction nodes as [|n nodes IH]; intros acc; simpl.
  - apply keeps_ret.
  - apply keeps_bind; [apply parse_node_keeps|]. intros o. apply IH.
Qed.

Lemma emits_weaken {A} (P Q : event -> Prop) (m : M A) :
  (forall e, P e -> Q e) -> emits P m -> emits Q m.
Proof. intros HPQ Hm db. eapply Forall_impl; [apply Hm|exact HPQ]. Qed.

Lemma rate_limit_wait_local w rl remaining :
  emits is_local (rate_limit_wait w rl remaining).
Proof. unfold rate_limit_wait, safe_sleep, print, sleep. effects. Qed.

Lemma rate_limit_wait_keeps w rl remaining :
  keeps_db (rate_limit_wait w rl remaining).
Proof. unfold rate_limit_wait, safe_sleep, print, sleep. effects. Qed.

Lemma read_page_local w data : emits is_local (read_page w data).
Proof.
  unfold read_page.
  repeat first
    [ apply rate_limit_wait_local
    | apply (emits_weaken is_print); [intros []; simpl; tauto|apply parse_nodes_prints]
    | step_effect ].
Qed.

Lemma read_page_keeps w data : keeps_db (read_page w data).
Proof.
  unfold read_page.
  repeat first
    [ apply rate_limit_wait_keeps | apply parse_nodes_keeps | step_effect ].
Qed.

(** ** The storage operations, as equations *)

Lemma upsert_tables_spec (day : Z) (now : Q) (rows : list row) (db : database) :
  upsert_tables day now rows db =
  if accepted 200 (map repo_id rows)
     && accepted 200 (map (fun r => (repo_id r, day)) rows)
  then Some {| repos := upsert_all (repo_values now rows) (repos db);
               repo_stars_history :=
                 upsert_all (snapshot_values day rows) (repo_stars_history db);
               crawl_checkpoints := crawl_checkpoints db |}
  else None.
Proof.
  unfold upsert_tables. rewrite !execute_values_spec by lia.
  unfold repo_values, snapshot_values. rewrite !map_map. simpl.
  destruct (accepted 200 (map repo_id rows)); [|reflexivity].
  destruct (accepted 200 (map (fun r => (repo_id r, day)) rows)); reflexivity.
Qed.

Lemma upsert_repos_and_snapshots_run (w : world) (rows : list row) (db : database) :
  upsert_repos_and_snapshots w rows db =
  match rows with
  | [] => ([], db, Ok tt)
  | _ =>
      match upsert_tables (today w) (now_utc w) rows db with
      | Some db' =>
          if upsert_commits w then ([UpsertCommit rows], db', Ok tt)
          else ([], db, Raise DatabaseError)
      | None => ([], db, Raise DatabaseError)
      end
  end.
Proof.
  unfold upsert_repos_and_snapshots. destruct rows as [|r rows]; [reflexivity|].
  unfold bind, get_db, put_db, emit, raise.
  destruct (upsert_tables _ _ _ _); [|reflexivity].
  destruct (upsert_commits w); reflexivity.
Qed.

Lemma write_checkpoint_run (w : world) (key : string) (value : json) (db : database) :
  write_checkpoint w key value db =
  if checkpoint_commits w
  then ([CheckpointCommit key value],
        {| repos := repos db;
           repo_stars_history := repo_stars_history db;
           crawl_checkpoints := <[key := (value, db_now w)]> (crawl_checkpoints db) |},
        Ok tt)
  else ([], db, Raise DatabaseError).
Proof. unfold write_checkpoint. destruct (checkpoint_commits w); reflexivity. Qed.

Lemma commit_page_run (w : world) (st : locals) (pg : page) (db : database) :
  commit_page w st pg db =
  match rows pg with
  | [] => ([Stdout NoNodesMsg], db, Ok (Break st))
  | _ =>
      match upsert_tables (today w) (now_utc w) (rows pg) db with
      | None => ([], db, Raise DatabaseError)
      | Some dbu =>
          let fetched' := fetched st + Z.of_nat (length (rows pg)) in
          let progress := Stdout (ProgressMsg fetched' (total args)) in
          if upsert_commits w then
            if truthy (endCursor pg) then
              if checkpoint_commits w then
                finish_page w pg
                  {| fetched := fetched'; after := endCursor pg; backoff_base := 1 |}
                  {| repos := repos dbu;
                     repo_stars_history := repo_stars_history dbu;
                     crawl_checkpoints :=
                       <[checkpoint_key args := (endCursor pg, db_now w)]>
                         (crawl_checkpoints dbu) |}
                  [UpsertCommit (rows pg); progress;
                   CheckpointCommit (checkpoint_key args) (endCursor pg)]
              else ([UpsertCommit (rows pg); progress], dbu, Raise DatabaseError)
            else
              finish_page w pg
                {| fetched := fetched'; after := after st; backoff_base := 1 |}
                dbu [UpsertCommit (rows pg); progress]
          else ([], db, Raise DatabaseError)
      end
  end.
Proof.
  unfold commit_page, finish_page.
  destruct (rows pg) as [|r l] eqn:Hrows; [reflexivity|].
  unfold bind at 1. rewrite upsert_repos_and_snapshots_run.
  destruct (upsert_tables _ _ _ _) as [dbu|]; [|reflexivity].
  destruct (upsert_commits w); [|reflexivity].
  unfold print. rewrite bind_emit.
  destruct (truthy (endCursor pg)).
  - unfold bind at 1. unfold bind at 1. rewrite write_checkpoint_run.
    destruct (checkpoint_commits w); [|reflexivity].
    unfold bind, ret, emit, lift, safe_sleep, sleep. cbv beta iota zeta.
    destruct (negb (truthy (has_next pg))); [reflexivity|].
    destruct (py_lt (remaining pg) 1000) as [[|]|e]; reflexivity.
  - unfold bind, ret, emit, lift, safe_sleep, sleep. cbv beta iota zeta.
    destruct (negb (truthy (has_next pg))); [reflexivity|].
    destruct (py_lt (remaining pg) 1000) as [[|]|e]; reflexivity.
Qed.

Ltac run_commit_page :=
  rewrite ?commit_page_run; unfold finish_page; repeat case_match; simplify_eq/=.

Lemma commit_page_continue w st pg db tr db' st' :
  commit_page w st pg db = (tr, db', Ok (Continue st')) ->
  backoff_base st' = 1%Q
  /\ fetched st' = fetched st + Z.of_nat (length (rows pg)).
Proof.
  run_commit_page; intros; simplify_eq/=; auto.
Qed.

Lemma loop_body_retryable (w : world) (st : locals) (db : database) :
  retryable (fetch w) = true ->
  loop_body w st db =
  ([Request page_size (after st); Stdout (failure_message (fetch w));
    Sleep (backoff_base st + random1 w * (3 # 10))%Q],
   db, Ok (Continue (escalate st))).
Proof.
  unfold loop_body, retryable. destruct (fetch w) as [|code body]; [reflexivity|].
  intros [Hne Hre]%andb_true_iff. rewrite bind_emit, Hne.
  unfold print. rewrite bind_emit, Hre. reflexivity.
Qed.

Lemma loop_body_client_error (w : world) (st : locals) (db : database) :
  client_error (fetch w) = true ->
  loop_body w st db =
  ([Request page_size (after st); Stdout (failure_message (fetch w)); Sleep 2],
   db, Ok (Continue st)).
Proof.
  unfold loop_body, client_error. destruct (fetch w) as [|code body]; [discriminate|].
  intros [Hne Hre]%andb_true_iff. apply negb_true_iff in Hre.
  rewrite bind_emit, Hne. unfold print. rewrite bind_emit, Hre. reflexivity.
Qed.

Lemma crawl_cons (w : world) (ws : list world) (st : locals) (db : database) :
  fetched st < total args ->
  crawl (w :: ws) st db =
  bind (loop_body w st)
       (fun c => match c with
                 | Continue st' => crawl ws st'
                 | Break st' => ret (Done st')
                 end) db.
Proof. intros Hlt%Z.ltb_lt. simpl. rewrite Hlt. reflexivity. Qed.

Lemma escalate_after (k : nat) (st : locals) :
  after (Nat.iter k escalate st) = after st.
Proof. induction k as [|k IH]; [reflexivity|]. simpl. exact IH. Qed.

Lemma Qmin_double_cap (p : Q) :
  (0 < p -> Qmin (Qmin p 60 * 2) 60 == Qmin (p * 2) 60)%Q.
Proof.
  intros Hp.
  destruct (Q.min_spec p 60) as [[H1 E1]|[H1 E1]];
  destruct (Q.min_spec (Qmin p 60 * 2) 60) as [[H2 E2]|[H2 E2]];
  destruct (Q.min_spec (p * 2) 60) as [[H3 E3]|[H3 E3]];
  rewrite E2, E3; rewrite ?E1 in *; lra.
Qed.

Lemma backoff_after_streak (k : nat) (st : locals) :
  backoff_base st = 1%Q ->
  (backoff_base (Nat.iter k escalate st) == Qmin (2 ^ Z.of_nat k) 60)%Q.
Proof.
  intros Hb. induction k as [|k IH].
  - simpl. rewrite Hb. reflexivity.
  - change (Nat.iter (S k) escalate st) with (escalate (Nat.iter k escalate st)).
    unfold escalate at 1. cbn [backoff_base]. rewrite IH.
    assert (Hpos : (0 < 2 ^ Z.of_nat k)%Q).
    { apply Qpower_0_lt. reflexivity. }
    rewrite (Qmin_double_cap _ Hpos).
    rewrite Nat2Z.inj_succ, <- Z.add_1_r, Qpower_plus by discriminate.
    reflexivity.
Qed.

Lemma bind_inv_ok {A B} (m : M A) (f : A -> M B) db tr db' y :
  bind m f db = (tr, db', Ok y) ->
  exists tr1 db1 x tr2,
    m db = (tr1, db1, Ok x) /\ f x db1 = (tr2, db', Ok y) /\ tr = tr1 ++ tr2.
Proof.
  unfold bind. destruct (m db) as [[tr1 db1] [x|e]]; [|discriminate].
  destruct (f x db1) as [[tr2 db2] r] eqn:Hf. intros [= <- <- ->].
  exists tr1, db1, x, tr2. auto.
Qed.

Lemma loop_body_page w st db data errors :
  fetch w = Response 200 (Some data) ->
  dict_get data "errors" JNull = Ok errors ->
  truthy errors = false ->
  loop_body w st db =
  let '(tr, db', r) := process_page w st data db in
  (Request page_size (after st) :: tr, db', r).
Proof.
  intros Hf He Ht. unfold loop_body. rewrite bind_emit, Hf.
  change (negb (200 =? 200)) with false. cbv iota.
  rewrite bind_lift. cbn [resp_json]. rewrite bind_lift, He, Ht. reflexivity.
Qed.

Lemma process_page_continue w st data db tr db' st' :
  process_page w st data db = (tr, db', Ok (Continue st')) ->
  backoff_base st' = 1%Q.
Proof.
  unfold process_page. intros (tr1 & db1 & pg & tr2 & _ & Hc & _)%bind_inv_ok.
  apply commit_page_continue in Hc. tauto.
Qed.

Lemma crawl_streak (ws : list world) (st : locals) (db : database) :
  Forall (fun w => retryable (fetch w) = true) ws ->
  fetched st < total args ->
  exists tr, crawl ws st db = (tr, db, Ok (Starved (Nat.iter (length ws) escalate st))).
Proof.
  intros Hall Hlt. revert st Hlt.
  induction Hall as [|w ws Hw Hall IH]; intros st Hlt.
  - exists []. simpl. apply Z.ltb_lt in Hlt. rewrite Hlt. reflexivity.
  - rewrite crawl_cons by exact Hlt.
    destruct (IH (escalate st) Hlt) as [tr Htr].
    rewrite (bind_run _ _ _ _ _ _ (loop_body_retryable w st db Hw)), Htr.
    eexists. cbn [length]. rewrite Nat.iter_succ_r. reflexivity.
Qed.

(** ** Checkpoints and commits *)

Lemma follow_local (l rest : list event) (b : bool) :
  Forall is_local l ->
  checkpoints_follow_commits b (l ++ rest) = checkpoints_follow_commits b rest.
Proof.
  induction 1 as [|e l He _ IH]; [reflexivity|].
  destruct e; simpl in He; try contradiction; simpl; exact IH.
Qed.

Lemma commit_page_follows w st pg db (rest : list event) :
  (forall b, checkpoints_follow_commits b rest = true) ->
  forall b, checkpoints_follow_commits b ((commit_page w st pg db).1.1 ++ rest) = true.
Proof.
  intros Hrest b. run_commit_page; rewrite ?Hrest; reflexivity.
Qed.

Lemma process_page_follows w st data db (rest : list event) :
  (forall b, checkpoints_follow_commits b rest = true) ->
  forall b, checkpoints_follow_commits b ((process_page w st data db).1.1 ++ rest) = true.
Proof.
  intros Hrest b. unfold process_page, bind.
  pose proof (read_page_local w data db) as Hloc.
  pose proof (read_page_keeps w data db) as Hdb.
  destruct (read_page w data db) as [[tr1 db1] [pg|e]]; simpl in Hloc, Hdb.
  - pose proof (commit_page_follows w st pg db1 rest Hrest b) as Hc.
    destruct (commit_page w st pg db1) as [[tr2 db2] r]. simpl in *.
    rewrite <- app_assoc, follow_local by exact Hloc. exact Hc.
  - simpl. rewrite follow_local by exact Hloc. apply Hrest.
Qed.

Lemma loop_body_follows w st db (rest : list event) :
  (forall b, checkpoints_follow_commits b rest = true) ->
  forall b, checkpoints_follow_commits b ((loop_body w st db).1.1 ++ rest) = true.
Proof.
  intros Hrest b. unfold loop_body. rewrite bind_emit.
  destruct (fetch w) as [|code body].
  - simpl. apply Hrest.
  - destruct (negb (code =? 200)).
    + destruct (retryable_status code); simpl; apply Hrest.
    + rewrite bind_lift. destruct (resp_json body) as [data|e]; [|simpl; apply Hrest].
      rewrite bind_lift. destruct (dict_get data "errors" JNull) as [errors|e];
        [|simpl; apply Hrest].
      destruct (truthy errors); [simpl; apply Hrest|].
      pose proof (process_page_follows w st data db rest Hrest false) as Hp.
      destruct (process_page w st data db) as [[tr db'] r]. exact Hp.
Qed.

Lemma crawl_follows (ws : list world) (st : locals) (db : database) (b : bool) :
  checkpoints_follow_commits b (crawl ws st db).1.1 = true.
Proof.
  revert st db b. induction ws as [|w ws IH]; intros st db b; simpl.
  - destruct (fetched st <? total args); reflexivity.
  - destruct (fetched st <? total args); [|reflexivity].
    unfold bind.
    pose proof (loop_body_follows w st db) as Hpass.
    destruct (loop_body w st db) as [[tr db'] [[st'|st']|e]]; simpl in *.
    + specialize (Hpass (crawl ws st' db').1.1 (IH st' db') b).
      destruct (crawl ws st' db') as [[tr' db''] r]. exact Hpass.
    + specialize (Hpass [] (fun _ => eq_refl) b). exact Hpass.
    + specialize (Hpass [] (fun _ => eq_refl) b). rewrite app_nil_r in Hpass.
      exact Hpass.
Qed.

Lemma upsert_tables_checkpoints day now rows db db' :
  upsert_tables day now rows db = Some db' ->
  crawl_checkpoints db' = crawl_checkpoints db.
Proof.
  rewrite upsert_tables_spec. case_match; [|discriminate].
  intros [= <-]. reflexivity.
Qed.

Lemma commit_page_checkpoint w st pg db :
  crawl_checkpoints (commit_page w st pg db).1.2 = crawl_checkpoints db
  \/ exists dbu post,
       upsert_tables (today w) (now_utc w) (rows pg) db = Some dbu
       /\ upsert_commits w = true
       /\ (commit_page w st pg db).1.1
          = UpsertCommit (rows pg)
              :: Stdout (ProgressMsg (fetched st + Z.of_nat (length (rows pg))) (total args))
              :: CheckpointCommit (checkpoint_key args) (endCursor pg) :: post
       /\ (commit_page w st pg db).1.2
          = {| repos := repos dbu;
               repo_stars_history := repo_stars_history dbu;
               crawl_checkpoints :=
                 <[checkpoint_key args := (endCursor pg, db_now w)]>
                   (crawl_checkpoints db) |}.
Proof.
  run_commit_page;
    try (left; first [reflexivity | eapply upsert_tables_checkpoints; eassumption]);
    right; eexists _, _; repeat split; try eassumption; try reflexivity;
    simpl; erewrite (upsert_tables_checkpoints _ _ _ db) by eassumption; reflexivity.
Qed.

Lemma loop_body_checkpoint w st db :
  crawl_checkpoints (loop_body w st db).1.2 = crawl_checkpoints db
  \/ checkpoint_written w st db (loop_body w st db).
Proof.
  unfold loop_body at 1. rewrite bind_emit.
  destruct (fetch w) as [|code body] eqn:Hf; [left; reflexivity|].
  destruct (negb (code =? 200)) eqn:Hcode.
  { destruct (retryable_status code); left; reflexivity. }
  apply negb_false_iff, Z.eqb_eq in Hcode. subst code.
  rewrite bind_lift. destruct body as [data|]; [|left; reflexivity].
  cbn [resp_json]. rewrite bind_lift.
  destruct (dict_get data "errors" JNull) as [errors|e] eqn:He; [|left; reflexivity].
  destruct (truthy errors) eqn:Ht; [left; reflexivity|].
  rewrite (loop_body_page w st db data errors Hf He Ht).
  unfold process_page, bind.
  pose proof (read_page_keeps w data db) as Hdb.
  destruct (read_page w data db) as [[tr1 db1] [pg|e]] eqn:Hread; simpl in Hdb;
    subst db1; [|left; reflexivity].
  destruct (commit_page_checkpoint w st pg db) as [Hsame|(dbu & post & Hu & Hc & Htr & Hdb')].
  - left. destruct (commit_page w st pg db) as [[tr2 db2] r]. exact Hsame.
  - right. exists data, tr1, pg, dbu, (Request page_size (after st) :: tr1), post.
    destruct (commit_page w st pg db) as [[tr2 db2] r]. simpl in *.
    subst tr2 db2. repeat split; assumption.
Qed.

(** ** The normaliser on one entry *)

Lemma dict_get_field (fields : list (string * json)) (k : string) :
  dict_get (JObj fields) k JNull = Ok (field k fields).
Proof. reflexivity. Qed.

Lemma parse_node_object (fields : list (string * json)) (db : database) :
  fields <> [] ->
  parse_node (JObj fields) db =
  match dict_get (py_or (field "owner" fields) (JObj [])) "login" JNull with
  | Raise e => ([], db, Raise e)
  | Ok owner =>
      if negb (truthy (field "databaseId" fields))
      then ([Stdout (MissingDatabaseIdMsg (field "id" fields))], db, Ok None)
      else
        match py_int (field "databaseId" fields) with
        | Raise e => ([], db, Raise e)
        | Ok repo_id =>
            match dict_get (py_or (field "primaryLanguage" fields) (JObj []))
                    "name" JNull with
            | Raise e => ([], db, Raise e)
            | Ok language =>
                ([], db,
                 Ok (Some {| repo_id := repo_id;
                             github_node_id := field "id" fields;
                             owner := owner;
                             name := field "name" fields;
                             full_name :=
                               py_format owner +:+ "/" +:+ py_format (field "name" fields);
                             url := field "url" fields;
                             description := field "description" fields;
                             language := language;
                             stargazerCount :=
                               py_or (field "stargazerCount" fields) (JInt 0);
                             updatedAt := field "updatedAt" fields |}))
            end
        end
  end.
Proof.
  intros Hne. unfold parse_node.
  replace (truthy (JObj fields)) with true by (destruct fields; [contradiction|reflexivity]).
  cbn [negb]. rewrite bind_lift, dict_get_field.
  rewrite bind_lift.
  destruct (dict_get (py_or (field "owner" fields) (JObj [])) "login" JNull)
    as [owner|e]; [|reflexivity].
  rewrite bind_lift, dict_get_field, bind_lift, dict_get_field.
  destruct (negb (truthy (field "databaseId" fields))).
  { rewrite bind_lift, dict_get_field. reflexivity. }
  rewrite bind_lift. destruct (py_int (field "databaseId" fields)) as [rid|e]; [|reflexivity].
  do 4 rewrite bind_lift, dict_get_field.
  rewrite bind_lift.
  destruct (dict_get (py_or (field "primaryLanguage" fields) (JObj [])) "name" JNull)
    as [language|e]; [|reflexivity].
  do 2 rewrite bind_lift, dict_get_field.
  reflexivity.
Qed.

Lemma dict_or_falsy_get (v : json) (k : string) :
  dict_or_falsy v = true ->
  exists x, dict_get (py_or v (JObj [])) k JNull = Ok x
            /\ (truthy v = false -> x = JNull).
Proof.
  unfold py_or. destruct (truthy v) eqn:Ht.
  - intros Hv.
    destruct v; try (unfold dict_or_falsy in Hv; rewrite Ht in Hv; discriminate).
    eexists. split; [reflexivity|discriminate].
  - intros _. exists JNull. split; reflexivity.
Qed.

Lemma parse_node_valid (n : json) :
  valid_entry n = true ->
  exists r, repo_id r = identifier n
            /\ forall db, parse_node n db = ([], db, Ok (Some r)).
Proof.
  destruct n as [| | | | |fields]; try discriminate.
  unfold valid_entry, identifier.
  intros [[Ho Hl]%andb_true_iff Hid]%andb_true_iff.
  destruct (assoc "databaseId" fields) as [[| |z| | |]|] eqn:Hdb; try discriminate.
  destruct (dict_or_falsy_get _ "login" Ho) as (o & Hlogin & _).
  destruct (dict_or_falsy_get _ "name" Hl) as (l & Hlang & _).
  assert (Hf : field "databaseId" fields = JInt z) by (unfold field; rewrite Hdb; reflexivity).
  eexists. split; [|intros db; rewrite parse_node_object].
  2:{ rewrite Hlogin, Hf. cbn [truthy]. rewrite Hid.
      cbn [negb py_int]. rewrite Hlang. reflexivity. }
  - reflexivity.
  - intros ->. discriminate.
Qed.

Lemma parse_node_null_identifier (n : json) (db : database) :
  null_identifier n = true ->
  parse_node n db = ([Stdout (MissingDatabaseIdMsg (entry_id n))], db, Ok None).
Proof.
  destruct n as [| | | | |fields]; try discriminate.
  unfold null_identifier.
  intros [[Ht Ho]%andb_true_iff Hid]%andb_true_iff.
  destruct (dict_or_falsy_get _ "login" Ho) as (o & Hlogin & _).
  cbn [entry_id]. rewrite parse_node_object.
  - assert (Hf : field "databaseId" fields = JNull).
    { unfold field.
      destruct (assoc "databaseId" fields) as [[| | | | |]|]; try discriminate; reflexivity. }
    rewrite Hlogin, Hf. reflexivity.
  - intros ->. discriminate.
Qed.

Lemma parse_node_nonzero n db tr db' r :
  numeric_identifier n = true ->
  parse_node n db = (tr, db', Ok (Some r)) ->
  nonzero_id r.
Proof.
  intros Hnum Hrun. destruct n as [| |z|s|items|fields];
    try (unfold parse_node in Hrun; destruct (negb (truthy _));
         [discriminate|rewrite bind_lift in Hrun; discriminate]).
  destruct fields as [|kv fields]; [discriminate|].
  rewrite parse_node_object in Hrun by discriminate.
  unfold numeric_identifier in Hnum.
  assert (Hf : field "databaseId" (kv :: fields) = JNull
               \/ exists z, field "databaseId" (kv :: fields) = JInt z).
  { unfold field.
    destruct (assoc "databaseId" (kv :: fields)) as [[| |z| | |]|]; try discriminate; eauto. }
  destruct Hf as [Hf|[z Hf]]; rewrite Hf in Hrun.
  - destruct (dict_get _ "login" JNull); discriminate.
  - destruct (dict_get _ "login" JNull); [|discriminate].
    cbn [truthy py_int] in Hrun. destruct (z =? 0) eqn:Hz; [discriminate|].
    cbn [negb] in Hrun. destruct (dict_get _ "name" JNull); [|discriminate].
    injection Hrun as _ _ <-. unfold nonzero_id. simpl. intros ->. discriminate.
Qed.

Lemma parse_nodes_nonzero items acc db tr db' rows :
  Forall (fun n => numeric_identifier n = true) items ->
  Forall nonzero_id acc ->
  parse_nodes items acc db = (tr, db', Ok rows) ->
  Forall nonzero_id rows.
Proof.
  intros Hitems. revert acc db tr.
  induction Hitems as [|n items Hn _ IH]; intros acc db tr Hacc Hrun.
  - injection Hrun as _ _ <-. exact Hacc.
  - simpl in Hrun.
    apply bind_inv_ok in Hrun as (tr1 & db1 & o & tr2 & Hnode & Hrest & _).
    apply IH in Hrest; [exact Hrest|].
    destruct o as [r|]; [|exact Hacc].
    apply Forall_app. split; [exact Hacc|].
    constructor; [|constructor]. exact (parse_node_nonzero _ _ _ _ _ Hn Hnode).
Qed.

Lemma parse_nodes_valid (items : list json) :
  Forall (fun n => valid_entry n = true) items ->
  exists rs, map repo_id rs = map identifier items
             /\ forall acc db, parse_nodes items acc db = ([], db, Ok (acc ++ rs)).
Proof.
  induction 1 as [|n items Hn _ (rs & Hids & IH)].
  - exists []. split; [reflexivity|]. intros acc db. rewrite app_nil_r. reflexivity.
  - destruct (parse_node_valid n Hn) as (r & Hid & Hnode).
    exists (r :: rs). split; [simpl; congruence|].
    intros acc db. simpl.
    rewrite (bind_run _ _ _ _ _ _ (Hnode db)), IH, <- app_assoc. reflexivity.
Qed.

Lemma parse_nodes_app (items1 items2 : list json) (acc : list row) (db : database) :
  parse_nodes (items1 ++ items2) acc db =
  bind (parse_nodes items1 acc) (parse_nodes items2) db.
Proof.
  revert acc db. induction items1 as [|n items1 IH]; intros acc db.
  - simpl. rewrite bind_ret. reflexivity.
  - simpl. rewrite bind_assoc. apply bind_ext. intros o db1. apply IH.
Qed.

Lemma upsert_tables_NoDup (day : Z) (now : Q) (rows : list row) (db : database) :
  NoDup (map repo_id rows) ->
  exists db',
    upsert_tables day now rows db = Some db'
    /\ forall r, r ∈ rows ->
         repos db' !! repo_id r
         = Some {| node := r; last_crawled_at := now; updated_local_at := now |}
         /\ repo_stars_history db' !! (repo_id r, day) = Some (stargazerCount r).
Proof.
  intros Hnd. rewrite upsert_tables_spec.
  assert (Hnd2 : NoDup (map (fun r => (repo_id r, day)) rows)).
  { rewrite <- (map_map repo_id (fun id => (id, day))).
    assert (Hinj : Inj (=) (=) (fun id : Z => (id, day))).
    { intros x y [= ->]. reflexivity. }
    apply (NoDup_fmap_2 (fun id : Z => (id, day))). exact Hnd. }
  rewrite (accepted_NoDup _ _ Hnd), (accepted_NoDup _ _ Hnd2). cbn [andb].
  eexists. split; [reflexivity|]. intros r Hr. cbn [repos repo_stars_history].
  rewrite !lookup_upsert_all. split.
  - erewrite latest_NoDup; [reflexivity| |].
    + unfold repo_values. rewrite map_map. exact Hnd.
    + unfold repo_values.
      apply (list_elem_of_fmap_2
               (fun r0 => (repo_id r0,
                           {| node := r0; last_crawled_at := now;
                              updated_local_at := now |})) _ _ Hr).
  - erewrite latest_NoDup; [reflexivity| |].
    + unfold snapshot_values. rewrite map_map. exact Hnd2.
    + unfold snapshot_values.
      apply (list_elem_of_fmap_2 (fun r0 => (repo_id r0, day, stargazerCount r0)) _ _ Hr).
Qed.

(** ** Reading a page *)

(** What a successfully read page says about the response. *)
Lemma read_page_inv w data db tr db' pg :
  read_page w data db = (tr, db', Ok pg) ->
  exists d rl low search nodes pageInfo items tr1 tr2,
    dict_get data "data" (JObj []) = Ok d
    /\ dict_get d "rateLimit" (JObj []) = Ok rl
    /\ dict_get rl "remaining" (JInt 5000) = Ok (remaining pg)
    /\ py_lt (remaining pg) 500 = Ok low
    /\ (if low then rate_limit_wait w rl (remaining pg) else ret tt) db = (tr1, db, Ok tt)
    /\ dict_get d "search" (JObj []) = Ok search
    /\ dict_get search "nodes" (JArr []) = Ok nodes
    /\ dict_get search "pageInfo" (JObj []) = Ok pageInfo
    /\ dict_get pageInfo "hasNextPage" (JBool false) = Ok (has_next pg)
    /\ dict_get pageInfo "endCursor" JNull = Ok (endCursor pg)
    /\ py_iter nodes = Ok items
    /\ parse_nodes items [] db = (tr2, db, Ok (rows pg))
    /\ tr = tr1 ++ tr2 /\ db' = db.
Proof.
  unfold read_page. intros Hrun.
  rewrite bind_lift in Hrun. destruct (dict_get data "data" _) as [d|] eqn:Hd; [|discriminate].
  rewrite bind_lift in Hrun. destruct (dict_get d "rateLimit" _) as [rl|] eqn:Hrl; [|discriminate].
  rewrite bind_lift in Hrun.
  destruct (dict_get rl "remaining" _) as [rem|] eqn:Hrem; [|discriminate].
  rewrite bind_lift in Hrun. destruct (py_lt rem 500) as [low|] eqn:Hlow; [|discriminate].
  apply bind_inv_ok in Hrun as (tr1 & db1 & u & tr2' & Hgov & Hrun & ->).
  assert (db1 = db) as ->.
  { destruct low.
    - pose proof (rate_limit_wait_keeps w rl rem db) as Hk.
      rewrite Hgov in Hk. exact Hk.
    - injection Hgov as _ <- _. reflexivity. }
  destruct u.
  rewrite bind_lift in Hrun. destruct (dict_get d "search" _) as [search|] eqn:Hs; [|discriminate].
  rewrite bind_lift in Hrun.
  destruct (dict_get search "nodes" _) as [nodes|] eqn:Hn; [|discriminate].
  rewrite bind_lift in Hrun.
  destruct (dict_get search "pageInfo" _) as [pageInfo|] eqn:Hpi; [|discriminate].
  rewrite bind_lift in Hrun.
  destruct (dict_get pageInfo "hasNextPage" _) as [hn|] eqn:Hhn; [|discriminate].
  rewrite bind_lift in Hrun.
  destruct (dict_get pageInfo "endCursor" _) as [ec|] eqn:Hec; [|discriminate].
  rewrite bind_lift in Hrun. destruct (py_iter nodes) as [items|] eqn:Hit; [|discriminate].
  apply bind_inv_ok in Hrun as (tr2 & db2 & rs & tr3 & Hparse & Hret & ->).
  injection Hret as <- <- <-.
  pose proof (parse_nodes_keeps items [] db) as Hk. rewrite Hparse in Hk. simpl in Hk.
  subst db2.
  exists d, rl, low, search, nodes, pageInfo, items, tr1, tr2. simpl.
  rewrite app_nil_r. repeat split; assumption.
Qed.

Lemma emits_bind_lift {A B} P (r : result A) (f : A -> M B) :
  (forall x, r = Ok x -> emits P (f x)) -> emits P (bind (lift r) f).
Proof.
  intros Hf db. rewrite bind_lift. destruct r as [x|e]; [|constructor].
  apply (Hf x eq_refl).
Qed.




(** ** The rate governor *)




(** ** Leaving the loop *)

Lemma commit_page_break w st pg db tr db' st' :
  commit_page w st pg db = (tr, db', Ok (Break st')) ->
  rows pg = []
  \/ exists dbu,
       upsert_tables (today w) (now_utc w) (rows pg) db = Some dbu
       /\ upsert_commits w = true
       /\ (truthy (endCursor pg) = true -> checkpoint_commits w = true)
       /\ truthy (has_next pg) = false.
Proof.
  rewrite commit_page_run. unfold finish_page.
  destruct (rows pg) as [|r rs] eqn:Hrows; [left; reflexivity|].
  destruct (upsert_tables _ _ _ _) as [dbu|]; [|discriminate].
  cbv zeta. destruct (upsert_commits w); [|discriminate].
  intros Hrun. right. exists dbu.
  destruct (truthy (endCursor pg)); [destruct (checkpoint_commits w); [|discriminate]|];
    (destruct (truthy (has_next pg));
     [cbn [negb] in Hrun; destruct (py_lt (remaining pg) 1000) as [[|]|]; discriminate|]);
    repeat split; try reflexivity; discriminate.
Qed.

Lemma commit_page_no_records w st pg db :
  rows pg = [] -> commit_page w st pg db = ([Stdout NoNodesMsg], db, Ok (Break st)).
Proof. intros Hrows. rewrite commit_page_run, Hrows. reflexivity. Qed.

Lemma commit_page_no_next_page w st pg db dbu :
  upsert_tables (today w) (now_utc w) (rows pg) db = Some dbu ->
  upsert_commits w = true ->
  (truthy (endCursor pg) = true -> checkpoint_commits w = true) ->
  truthy (has_next pg) = false ->
  exists tr db' st', commit_page w st pg db = (tr, db', Ok (Break st')).
Proof.
  intros Hup Hc Hck Hn. rewrite commit_page_run. unfold finish_page.
  destruct (rows pg) as [|r rs]; [eauto|].
  rewrite Hup, Hc, Hn. cbv zeta. cbn [negb].
  destruct (truthy (endCursor pg)); [rewrite Hck by reflexivity|]; eauto.
Qed.

Lemma loop_body_break w st db tr db' st' :
  loop_body w st db = (tr, db', Ok (Break st')) ->
  exists data errors tr1 pg,
    fetch w = Response 200 (Some data)
    /\ dict_get data "errors" JNull = Ok errors
    /\ truthy errors = false
    /\ read_page w data db = (tr1, db, Ok pg)
    /\ commit_page w st pg db = (drop (S (length tr1)) tr, db', Ok (Break st')).
Proof.
  unfold loop_body. rewrite bind_emit.
  destruct (fetch w) as [|code body]; [discriminate|].
  destruct (negb (code =? 200)) eqn:Hcode.
  { destruct (retryable_status code); discriminate. }
  apply negb_false_iff, Z.eqb_eq in Hcode. subst code.
  rewrite bind_lift. destruct body as [data|]; [|discriminate]. cbn [resp_json].
  rewrite bind_lift. destruct (dict_get data "errors" JNull) as [errors|] eqn:He;
    [|discriminate].
  destruct (truthy errors) eqn:Ht; [discriminate|].
  destruct (process_page w st data db) as [[tr0 db0] r0] eqn:Hp.
  intros [= <- <- ->].
  apply bind_inv_ok in Hp as (tr1 & db1 & pg & tr2 & Hread & Hcommit & ->).
  pose proof (read_page_keeps w data db) as Hk. rewrite Hread in Hk. simpl in Hk.
  subst db1. exists data, errors, tr1, pg.
  repeat split; try assumption.
  cbn [drop]. rewrite drop_app_length. exact Hcommit.
Qed.

(** ** Repeating an ingestion *)

Lemma latest_map {A K V} `{EqDecision K} (key : A -> K) (f : A -> V) (l : list A) (k : K) :
  latest k (map (fun x => (key x, f x)) l)
  = f <$> latest k (map (fun x => (key x, x)) l).
Proof.
  induction l as [|x l IH]; [reflexivity|].
  simpl. rewrite IH.
  destruct (latest k (map (fun x0 => (key x0, x0)) l)); [reflexivity|].
  simpl. destruct (decide (k = key x)); reflexivity.
Qed.

Lemma upsert_tables_repeated (day : Z) (now1 now2 : Q) (batch : list row)
    (db db1 : database) :
  upsert_tables day now1 batch db = Some db1 ->
  exists db2,
    upsert_tables day now2 batch db1 = Some db2
    /\ repo_stars_history db2 = repo_stars_history db1
    /\ crawl_checkpoints db2 = crawl_checkpoints db1
    /\ dom (repos db2) = dom (repos db1)
    /\ size (repos db2) = size (repos db1)
    /\ (forall id, node <$> repos db2 !! id = node <$> repos db1 !! id)
    /\ (forall id, id ∈ map repo_id batch ->
                   last_crawled_at <$> repos db2 !! id = Some now2
                   /\ updated_local_at <$> repos db2 !! id = Some now2)
    /\ (now2 = now1 -> db2 = db1).
Proof.
  rewrite !upsert_tables_spec.
  destruct (accepted 200 (map repo_id batch)
            && accepted 200 (map (fun r => (repo_id r, day)) batch)); [|discriminate].
  intros [= <-].
  eexists. split; [reflexivity|]. cbn [repos repo_stars_history crawl_checkpoints].
  set (t1 := upsert_all (repo_values now1 batch) (repos db)).
  assert (Hlook : forall id,
             upsert_all (repo_values now2 batch) t1 !! id
             = match latest id (map (fun x => (repo_id x, x)) batch) with
               | Some r => Some {| node := r; last_crawled_at := now2;
                                   updated_local_at := now2 |}
               | None => t1 !! id
               end).
  { intros id. rewrite lookup_upsert_all. unfold repo_values.
    rewrite (latest_map repo_id).
    destruct (latest id (map (fun x => (repo_id x, x)) batch)); reflexivity. }
  assert (Hlook1 : forall id r,
             latest id (map (fun x => (repo_id x, x)) batch) = Some r ->
             t1 !! id = Some {| node := r; last_crawled_at := now1;
                                updated_local_at := now1 |}).
  { intros id r Hl. unfold t1. rewrite lookup_upsert_all. unfold repo_values.
    rewrite (latest_map repo_id), Hl. reflexivity. }
  assert (Hnode : forall id,
             node <$> upsert_all (repo_values now2 batch) t1 !! id = node <$> t1 !! id).
  { intros id. rewrite Hlook.
    destruct (latest id (map (fun x => (repo_id x, x)) batch)) as [r|] eqn:Hl;
      [|reflexivity].
    rewrite (Hlook1 id r Hl). reflexivity. }
  assert (Hdom : dom (upsert_all (repo_values now2 batch) t1) = dom t1).
  { apply set_eq. intros id. rewrite !elem_of_dom, <- !(fmap_is_Some node), Hnode.
    reflexivity. }
  split; [apply upsert_all_twice|]. split; [reflexivity|].
  split; [exact Hdom|]. split; [rewrite <- !size_dom, Hdom; reflexivity|].
  split; [exact Hnode|]. split.
  - intros id Hin. rewrite Hlook.
    destruct (latest id (map (fun x => (repo_id x, x)) batch)) as [r|] eqn:Hl;
      [split; reflexivity|].
    apply latest_None in Hl. rewrite map_map in Hl. contradiction.
  - intros ->. f_equal; [unfold t1|]; apply upsert_all_twice.
Qed.

(** ** Properties of the specification *)

(** C1, as the code has it: a status other than 200 and outside 502, 503,
    504, 429 does not end the loop. The pass prints the status, sleeps a
    fixed 2 seconds (no jitter, no change of the backoff) and the loop goes
    on from the same state, so the same request is sent again. *)
Theorem client_error_retried (w : world) (ws : list world) (st : locals) (db : database) :
  client_error (fetch w) = true ->
  fetched st < total args ->
  crawl (w :: ws) st db =
  let '(tr, db', r) := crawl ws st db in
  (Request page_size (after st) :: Stdout (failure_message (fetch w)) :: Sleep 2 :: tr,
   db', r).
Proof.
  intros Hc Hlt. rewrite crawl_cons by exact Hlt.
  rewrite (bind_run _ _ _ _ _ _ (loop_body_client_error w st db Hc)).
  destruct (crawl ws st db) as [[tr db'] r]. reflexivity.
Qed.

(** C2: in the trace of every run, each checkpoint commit comes after an
    upsert commit of the same pass; and a pass either leaves the checkpoint
    table as it was, or it has committed the rows of the page it read and
    then stored that page's end cursor. In particular a pass whose batch
    did not commit never changes the checkpoint. *)
Theorem checkpoint_after_commit (ws : list world) (w : world) (st : locals)
    (db : database) :
  checkpoints_follow_commits false (crawl ws st db).1.1 = true
  /\ (crawl_checkpoints (loop_body w st db).1.2 = crawl_checkpoints db
      \/ checkpoint_written w st db (loop_body w st db)).
Proof.
  split; [apply crawl_follows|apply loop_body_checkpoint].
Qed.

(** C3: after [k] retryable failures in a row, counted from a state whose
    backoff is the base 1, the loop is still running and the next retryable
    failure sleeps min(2^k, 60) plus the jitter random * 0.3, which lies in
    [0, 0.3); and any pass over a successful page that lets the loop go on
    leaves the backoff at the base again. *)
Theorem backoff_growth_and_reset (k : nat) (ws : list world) (w : world)
    (st : locals) (db : database) :
  length ws = k ->
  Forall (fun w' => retryable (fetch w') = true) ws ->
  retryable (fetch w) = true ->
  backoff_base st = 1%Q ->
  fetched st < total args ->
  (0 <= random1 w /\ random1 w < 1)%Q ->
  exists tr st' delay,
    crawl ws st db = (tr, db, Ok (Starved st'))
    /\ loop_body w st' db =
       ([Request page_size (after st); Stdout (failure_message (fetch w)); Sleep delay],
        db, Ok (Continue (escalate st')))
    /\ (delay == Qmin (2 ^ Z.of_nat k) 60 + random1 w * (3 # 10))%Q
    /\ (0 <= random1 w * (3 # 10) /\ random1 w * (3 # 10) < 3 # 10)%Q
    /\ forall w' data errors db1 tr' db2 st2,
         fetch w' = Response 200 (Some data) ->
         dict_get data "errors" JNull = Ok errors ->
         truthy errors = false ->
         loop_body w' (escalate st') db1 = (tr', db2, Ok (Continue st2)) ->
         backoff_base st2 = 1%Q.
Proof.
  intros Hlen Hall Hw Hb Hlt [Hr0 Hr1].
  destruct (crawl_streak ws st db Hall Hlt) as [tr Htr].
  exists tr, (Nat.iter (length ws) escalate st),
    (backoff_base (Nat.iter (length ws) escalate st) + random1 w * (3 # 10))%Q.
  split; [exact Htr|]. split.
  { rewrite (loop_body_retryable w _ db Hw), escalate_after. reflexivity. }
  split.
  { rewrite (backoff_after_streak (length ws) st Hb), Hlen. reflexivity. }
  split; [lra|].
  intros w' data errors db1 tr' db2 st2 Hf He Ht Hrun.
  rewrite (loop_body_page _ _ _ _ _ Hf He Ht) in Hrun.
  destruct (process_page w' (escalate (Nat.iter (length ws) escalate st)) data db1)
    as [[tr0 db0] r0] eqn:Hp.
  injection Hrun as _ <- ->.
  exact (process_page_continue _ _ _ _ _ _ _ Hp).
Qed.


(** C5, as the code has it: a second ingestion of the same batch on the
    same calendar day succeeds when the first did, creates no row and
    leaves every count unchanged; the snapshot rows are the same, and the
    catalog rows are the same except for [last_crawled_at] and
    [updated_local_at], which take the time of the second run. With the
    same clock reading the stored state is exactly the same. *)
Theorem ingestion_repeated (w1 w2 : world) (batch : list row) (db : database)
    (tr : list event) (db1 : database) :
  upsert_repos_and_snapshots w1 batch db = (tr, db1, Ok tt) ->
  today w2 = today w1 ->
  upsert_commits w2 = true ->
  exists db2,
    upsert_repos_and_snapshots w2 batch db1 = (tr, db2, Ok tt)
    /\ repo_stars_history db2 = repo_stars_history db1
    /\ crawl_checkpoints db2 = crawl_checkpoints db1
    /\ dom (repos db2) = dom (repos db1)
    /\ size (repos db2) = size (repos db1)
    /\ (forall id, node <$> repos db2 !! id = node <$> repos db1 !! id)
    /\ (forall id, id ∈ map repo_id batch ->
                   last_crawled_at <$> repos db2 !! id = Some (now_utc w2)
                   /\ updated_local_at <$> repos db2 !! id = Some (now_utc w2))
    /\ (now_utc w2 = now_utc w1 -> db2 = db1).
Proof.
  intros Hrun Hday Hcommit.
  rewrite upsert_repos_and_snapshots_run in Hrun |- *.
  destruct batch as [|r0 rs].
  { injection Hrun as <- <-. exists db.
    repeat split; try reflexivity;
      match goal with H : _ ∈ map repo_id [] |- _ => apply elem_of_nil in H; contradiction end. }
  remember (r0 :: rs) as batch eqn:Hbatch.
  destruct (upsert_tables (today w1) (now_utc w1) batch db) as [dbu|] eqn:Hup;
    [|subst batch; discriminate].
  destruct (upsert_commits w1); [|subst batch; discriminate].
  assert (tr = [UpsertCommit batch] /\ db1 = dbu) as [-> ->].
  { subst batch. injection Hrun as <- <-. split; reflexivity. }
  destruct (upsert_tables_repeated (today w1) (now_utc w1) (now_utc w2) batch db dbu Hup)
    as (db2 & Hup2 & Hprops).
  exists db2. rewrite Hday, Hup2, Hcommit. subst batch. split; [reflexivity|exact Hprops].
Qed.

(** C6: a page that holds one entry with a null identifier among N
    valid ones is normalised without an exception into the N records of
    the valid entries, in their order, with one warning, for the entry
    dropped; the records are those the page without that entry gives, and
    their ingestion (identifiers distinct, commit accepted) stores each of
    them. *)
Theorem malformed_entry_tolerated (w : world) (before behind : list json)
    (bad : json) (db : database) :
  Forall (fun n => valid_entry n = true) (before ++ behind) ->
  null_identifier bad = true ->
  NoDup (map identifier (before ++ behind)) ->
  upsert_commits w = true ->
  exists rows db',
    parse_nodes (before ++ bad :: behind) [] db
    = ([Stdout (MissingDatabaseIdMsg (entry_id bad))], db, Ok rows)
    /\ length rows = length (before ++ behind)
    /\ map repo_id rows = map identifier (before ++ behind)
    /\ parse_nodes (before ++ behind) [] db = ([], db, Ok rows)
    /\ upsert_repos_and_snapshots w rows db
       = (match rows with [] => [] | _ => [UpsertCommit rows] end, db', Ok tt)
    /\ forall r, r ∈ rows -> node <$> repos db' !! repo_id r = Some r.
Proof.
  intros [Hb Ha]%Forall_app Hbad Hnd Hcommit.
  destruct (parse_nodes_valid before Hb) as (rs1 & Hid1 & Hrun1).
  destruct (parse_nodes_valid behind Ha) as (rs2 & Hid2 & Hrun2).
  pose proof (fun db0 => parse_node_null_identifier bad db0 Hbad) as Hnode.
  assert (Hids : map repo_id (rs1 ++ rs2) = map identifier (before ++ behind)).
  { rewrite !map_app. congruence. }
  assert (Hnd' : NoDup (map repo_id (rs1 ++ rs2))) by (rewrite Hids; exact Hnd).
  destruct (upsert_tables_NoDup (today w) (now_utc w) (rs1 ++ rs2) db Hnd')
    as (db' & Hup & Hlook).
  exists (rs1 ++ rs2), (match rs1 ++ rs2 with [] => db | _ => db' end).
  split; [|split; [|split; [|split; [|split]]]].
  - rewrite parse_nodes_app, (bind_run _ _ _ _ _ _ (Hrun1 [] db)). simpl.
    rewrite (bind_run _ _ _ _ _ _ (Hnode db)), Hrun2. reflexivity.
  - rewrite <- (length_map repo_id), Hids, length_map. reflexivity.
  - exact Hids.
  - rewrite parse_nodes_app, (bind_run _ _ _ _ _ _ (Hrun1 [] db)), Hrun2. reflexivity.
  - rewrite upsert_repos_and_snapshots_run, Hup, Hcommit.
    destruct (rs1 ++ rs2); reflexivity.
  - intros r Hr. destruct (rs1 ++ rs2) as [|r0 rs] eqn:Hrs.
    + apply elem_of_nil in Hr. contradiction.
    + destruct (Hlook r Hr) as [-> _]. reflexivity.
Qed.

(** C7: a run leaves the loop normally exactly when, after passes that
    continue, the fetched count has reached the target at the head of the
    loop, or a page read without an exception yields no usable record, or a
    page whose batch was committed reports no next page. *)
Theorem loop_done_iff (ws : list world) (st : locals) (db : database) :
  (exists tr db' st', crawl ws st db = (tr, db', Ok (Done st')))
  <-> loop_exits ws st db.
Proof.
  split.
  - revert st db. induction ws as [|w ws IH]; intros st db (tr & db' & st' & Hrun).
    + simpl in Hrun. destruct (fetched st <? total args) eqn:Hlt; [discriminate|].
      apply exit_target. apply Z.ltb_ge. exact Hlt.
    + destruct (Z.lt_ge_cases (fetched st) (total args)) as [Hlt|Hge];
        [|apply exit_target; exact Hge].
      rewrite crawl_cons in Hrun by exact Hlt.
      apply bind_inv_ok in Hrun as (tr1 & db1 & c & tr2 & Hbody & Hk & _).
      destruct c as [st1|st1].
      * eapply exit_later; [exact Hlt|exact Hbody|]. apply IH. eauto.
      * apply loop_body_break in Hbody
          as (data & errors & tr0 & pg & Hf & He & Ht & Hread & Hcommit).
        apply commit_page_break in Hcommit as [Hrows|(dbu & Hup & Hc & Hck & Hn)].
        -- eapply exit_no_records; eassumption.
        -- eapply exit_no_next_page; eassumption.
  - induction 1 as [ws st db Hge
                   |w ws st db data errors tr pg Hlt Hf He Ht Hread Hrows
                   |w ws st db data errors tr pg dbu Hlt Hf He Ht Hread Hup Hc Hck Hn
                   |w ws st db tr db' st' Hlt Hbody _ (tr2 & db2 & st2 & IH)].
    + exists [], db, st. apply Z.ltb_ge in Hge.
      destruct ws; simpl; rewrite Hge; reflexivity.
    + rewrite crawl_cons by exact Hlt.
      unfold bind. rewrite (loop_body_page _ _ _ _ _ Hf He Ht).
      unfold process_page. rewrite (bind_run _ _ _ _ _ _ Hread).
      rewrite (commit_page_no_records _ _ _ _ Hrows). simpl. eauto.
    + rewrite crawl_cons by exact Hlt.
      unfold bind. rewrite (loop_body_page _ _ _ _ _ Hf He Ht).
      unfold process_page. rewrite (bind_run _ _ _ _ _ _ Hread).
      destruct (commit_page_no_next_page w st pg db dbu Hup Hc Hck Hn)
        as (tr2 & db2 & st2 & ->).
      simpl. eauto.
    + rewrite crawl_cons by exact Hlt.
      rewrite (bind_run _ _ _ _ _ _ Hbody), IH. eauto.
Qed.

(** C8: an entry whose [databaseId] is the integer 0 is dropped with the
    same warning as the entry that differs from it only in having a null or
    absent [databaseId]; and when the identifiers of a page are integers or
    null, no record the page yields for ingestion has [repo_id] 0. *)
Theorem zero_identifier_discarded (fields0 fieldsN : list (string * json))
    (w : world) (data : json) (items : list json) (db : database)
    (tr : list event) (db' : database) (pg : page) :
  (forall k, k <> "databaseId" -> assoc k fields0 = assoc k fieldsN) ->
  assoc "databaseId" fields0 = Some (JInt 0) ->
  field "databaseId" fieldsN = JNull ->
  fieldsN <> [] ->
  dict_or_falsy (field "owner" fields0) = true ->
  page_items data = Ok items ->
  Forall (fun n => numeric_identifier n = true) items ->
  read_page w data db = (tr, db', Ok pg) ->
  parse_node (JObj fields0) db
  = ([Stdout (MissingDatabaseIdMsg (field "id" fields0))], db, Ok None)
  /\ parse_node (JObj fieldsN) db = parse_node (JObj fields0) db
  /\ Forall (fun r => repo_id r <> 0) (rows pg).
Proof.
  intros Hsame Hzero Hnull HneN Howner Hitems Hnum Hread.
  assert (Hne0 : fields0 <> []) by (intros ->; discriminate).
  assert (Hf : forall k, k <> "databaseId" -> field k fieldsN = field k fields0).
  { intros k Hk. unfold field. rewrite (Hsame k Hk). reflexivity. }
  assert (Hd0 : field "databaseId" fields0 = JInt 0) by (unfold field; rewrite Hzero; reflexivity).
  destruct (dict_or_falsy_get _ "login" Howner) as (o & Hlogin & _).
  assert (H0 : parse_node (JObj fields0) db
               = ([Stdout (MissingDatabaseIdMsg (field "id" fields0))], db, Ok None)).
  { rewrite parse_node_object by exact Hne0. rewrite Hlogin, Hd0. reflexivity. }
  split; [exact H0|]. split.
  - rewrite H0, parse_node_object by exact HneN.
    rewrite (Hf "owner"), (Hf "id"), Hlogin, Hnull by discriminate. reflexivity.
  - apply read_page_inv in Hread
      as (d & rl & low & search & nodes & pageInfo & items' & tr1 & tr2
          & Hd & _ & _ & _ & _ & Hs & Hn & _ & _ & _ & Hit & Hparse & _).
    unfold page_items in Hitems. rewrite Hd, Hs, Hn, Hit in Hitems.
    injection Hitems as ->.
    eapply parse_nodes_nonzero; [exact Hnum|constructor|exact Hparse].
Qed.


(** C10: an entry with a non-zero integer identifier is kept when its
    owner or its name is missing. The record carries None for what is
    missing, and its full name is the interpolation of the two values, None
    printing as the text None. *)
Theorem missing_owner_or_name_kept (fields : list (string * json)) (z : Z)
    (db : database) :
  assoc "databaseId" fields = Some (JInt z) ->
  z <> 0 ->
  dict_or_falsy (field "owner" fields) = true ->
  dict_or_falsy (field "primaryLanguage" fields) = true ->
  exists r,
    parse_node (JObj fields) db = ([], db, Ok (Some r))
    /\ repo_id r = z
    /\ dict_get (py_or (field "owner" fields) (JObj [])) "login" JNull = Ok (owner r)
    /\ name r = field "name" fields
    /\ full_name r = py_format (owner r) +:+ "/" +:+ py_format (name r)
    /\ (truthy (field "owner" fields) = false -> owner r = JNull)
    /\ (assoc "name" fields = None -> name r = JNull)
    /\ py_format JNull = "None".
Proof.
  intros Hid Hz Ho Hl.
  assert (Hf : field "databaseId" fields = JInt z) by (unfold field; rewrite Hid; reflexivity).
  destruct (dict_or_falsy_get _ "login" Ho) as (o & Hlogin & Hnone).
  destruct (dict_or_falsy_get _ "name" Hl) as (l & Hlang & _).
  eexists. split.
  { rewrite parse_node_object by (intros ->; discriminate).
    rewrite Hlogin, Hf. cbn [truthy py_int].
    replace (z =? 0) with false by (symmetry; apply Z.eqb_neq; exact Hz).
    cbn [negb]. rewrite Hlang. reflexivity. }
  cbn [repo_id owner name full_name].
  repeat split; try assumption.
  intros Hname. unfold field. rewrite Hname. reflexivity.
Qed.

(** ** Further properties of the code *)

Lemma crawl_emits (P : event -> Prop) :
  (forall w st, emits P (loop_body w st)) ->
  forall ws st, emits P (crawl ws st).
Proof.
  intros Hbody ws. induction ws as [|w ws IH]; intros st; simpl.
  - destruct (fetched st <? total args); apply emits_ret.
  - destruct (fetched st <? total args); [|apply emits_ret].
    apply emits_bind; [apply Hbody|]. intros [st'|st']; [apply IH|apply emits_ret].
Qed.

Lemma commit_page_no_request w st pg : emits not_request (commit_page w st pg).
Proof.
  unfold commit_page, upsert_repos_and_snapshots, write_checkpoint, print, sleep, safe_sleep.
  effects.
Qed.

Lemma process_page_no_request w st data : emits not_request (process_page w st data).
Proof.
  unfold process_page. apply emits_bind.
  - apply (emits_weaken is_local); [intros []; simpl; tauto|]. apply read_page_local.
  - intros pg. apply commit_page_no_request.
Qed.

Lemma page_size_clamped :
  10 <= page_size <= 100
  /\ (10 <= page_size_arg args <= 100 -> page_size = page_size_arg args).
Proof. unfold page_size. lia. Qed.

Lemma loop_body_requests w st : emits request_in_bounds (loop_body w st).
Proof.
  unfold loop_body. apply emits_bind.
  - apply emits_emit. exact (proj1 page_size_clamped).
  - intros _. apply (emits_weaken not_request); [intros []; simpl; tauto|].
    unfold print, sleep, safe_sleep.
    repeat first [ apply process_page_no_request | step_effect ].
Qed.

(** X1: whatever [--page-size] is given, every request of a run asks
    for between 10 and 100 entries, and for the number given when that lies
    in the range. *)
Theorem requests_in_bounds (token : option string) (ws : list world) (db : database) :
  Forall request_in_bounds (main token ws db).1.1
  /\ 10 <= page_size <= 100
  /\ page_size = Z.min 100 (Z.max 10 (page_size_arg args))
  /\ (page_size_arg args < 10 -> page_size = 10)
  /\ (100 < page_size_arg args -> page_size = 100)
  /\ (10 <= page_size_arg args <= 100 -> page_size = page_size_arg args).
Proof.
  split; [|unfold page_size; lia].
  unfold main. destruct token as [t|]; [|constructor].
  destruct (negb (truthy (JStr t))); [constructor|].
  apply emits_bind.
  - unfold read_checkpoint. effects.
  - intros cursor. apply crawl_emits. apply loop_body_requests.
Qed.

(** X2: after [write_checkpoint], [read_checkpoint] on the same key
    gives the value written when the commit went through and what it gave
    before when it did not; every other key reads as before, a key never
    written reads None, and both tables of records are left alone. *)
Theorem checkpoint_round_trip (w : world) (key : string) (value : json) (db : database) :
  let db' := (write_checkpoint w key value db).1.2 in
  (read_checkpoint key db').2
  = (if checkpoint_commits w then Ok value else (read_checkpoint key db).2)
  /\ (forall k, k <> key -> (read_checkpoint k db').2 = (read_checkpoint k db).2)
  /\ (forall k, crawl_checkpoints db !! k = None -> (read_checkpoint k db).2 = Ok JNull)
  /\ repos db' = repos db
  /\ repo_stars_history db' = repo_stars_history db
  /\ (read_checkpoint key db').1 = ([], db').
Proof.
  cbv zeta. rewrite write_checkpoint_run.
  unfold read_checkpoint, bind, get_db, ret. simpl.
  destruct (checkpoint_commits w); simpl.
  - rewrite lookup_insert_eq. repeat split; try reflexivity.
    + intros k Hk. rewrite lookup_insert_ne by congruence. reflexivity.
    + intros k ->. reflexivity.
  - repeat split; try reflexivity. intros k ->. reflexivity.
Qed.

(** X4: a 200 response whose body carries a non-empty [errors] list is
    never ingested, whatever else it carries: the pass prints the errors,
    sleeps 2 seconds plus jitter and the loop goes on from the same state,
    with the same cursor and the same backoff, and the same database. *)
Theorem graphql_errors_retried (w : world) (ws : list world) (st : locals)
    (db : database) (data errors : json) :
  fetch w = Response 200 (Some data) ->
  dict_get data "errors" JNull = Ok errors ->
  truthy errors = true ->
  fetched st < total args ->
  crawl (w :: ws) st db =
  let '(tr, db', r) := crawl ws st db in
  (Request page_size (after st) :: Stdout (GraphQLErrorsMsg errors)
     :: Sleep (2 + random1 w * (3 # 10))%Q :: tr,
   db', r).
Proof.
  intros Hf He Ht Hlt. rewrite crawl_cons by exact Hlt.
  assert (Hbody : loop_body w st db
                  = ([Request page_size (after st); Stdout (GraphQLErrorsMsg errors);
                      Sleep (2 + random1 w * (3 # 10))%Q], db, Ok (Continue st))).
  { unfold loop_body. rewrite bind_emit, Hf.
    change (negb (200 =? 200)) with false. cbv iota.
    rewrite bind_lift. cbn [resp_json]. rewrite bind_lift, He, Ht. reflexivity. }
  rewrite (bind_run _ _ _ _ _ _ Hbody).
  destruct (crawl ws st db) as [[tr db'] r]. reflexivity.
Qed.

Lemma parse_node_falsy (n : json) (db : database) :
  truthy n = false -> parse_node n db = ([], db, Ok None).
Proof. intros Hn. unfold parse_node. rewrite Hn. reflexivity. Qed.

(** X9: entries that are null or empty are skipped without a warning:
    the normaliser gives the same records, the same warnings and the same
    exception on a page as on that page with its falsy entries removed. *)
Theorem falsy_entries_skipped (items : list json) (acc : list row) (db : database) :
  parse_nodes (List.filter truthy items) acc db = parse_nodes items acc db.
Proof.
  revert acc db. induction items as [|n items IH]; intros acc db; [reflexivity|].
  simpl. destruct (truthy n) eqn:Hn.
  - simpl. apply bind_ext. intros o db'. apply IH.
  - rewrite (bind_run _ _ _ _ _ _ (parse_node_falsy n db Hn)), IH.
    destruct (parse_nodes items acc db) as [[tr db'] r]. reflexivity.
Qed.

(** X10: every record the normaliser produces comes from a non-empty
    object whose [databaseId] is truthy, without a warning; its key is
    [int] of that identifier, its node id, url, description and update time
    are the entry's fields (None when absent, never an empty text put in
    its place), its full name is the interpolation of owner and name, and
    its star count is the entry's when that is truthy and 0 otherwise. *)
Theorem record_of_entry (n : json) (db : database) (tr : list event)
    (db' : database) (r : row) :
  parse_node n db = (tr, db', Ok (Some r)) ->
  tr = [] /\ db' = db
  /\ exists fields,
      n = JObj fields
      /\ truthy (field "databaseId" fields) = true
      /\ py_int (field "databaseId" fields) = Ok (repo_id r)
      /\ github_node_id r = field "id" fields
      /\ name r = field "name" fields
      /\ url r = field "url" fields
      /\ description r = field "description" fields
      /\ updatedAt r = field "updatedAt" fields
      /\ full_name r = py_format (owner r) +:+ "/" +:+ py_format (name r)
      /\ stargazerCount r
         = (if truthy (field "stargazerCount" fields)
            then field "stargazerCount" fields else JInt 0).
Proof.
  intros Hrun.
  destruct n as [| |z|s|items|fields];
    try (unfold parse_node in Hrun; destruct (negb (truthy _));
         [discriminate|rewrite bind_lift in Hrun; discriminate]).
  destruct fields as [|kv fields]; [discriminate|].
  rewrite parse_node_object in Hrun by discriminate.
  destruct (dict_get _ "login" JNull) as [o|]; [|discriminate].
  destruct (truthy (field "databaseId" (kv :: fields))) eqn:Hid; [|discriminate].
  cbn [negb] in Hrun.
  destruct (py_int (field "databaseId" (kv :: fields))) as [rid|] eqn:Hint; [|discriminate].
  destruct (dict_get _ "name" JNull) as [l|]; [|discriminate].
  injection Hrun as <- <- <-.
  split; [reflexivity|]. split; [reflexivity|].
  exists (kv :: fields). unfold py_or.
  repeat split; try reflexivity; first [exact Hid|exact Hint].
Qed.

(** ** Passes that end well *)

Lemma loop_body_head w st db :
  exists tail, (loop_body w st db).1.1 = Request page_size (after st) :: tail.
Proof.
  unfold loop_body. apply (bind_trace_prefix (emit _)).
Qed.

Lemma failed_cases (f : response) :
  failed f = true -> retryable f = true \/ client_error f = true.
Proof.
  destruct f as [|code body]; simpl; [auto|].
  intros ->. destruct (retryable_status code); auto.
Qed.

(** A pass that does not raise either left the database alone and
    kept the cursor and the count, or read a page and ran the second half
    of the body on it. *)
Lemma loop_body_ok_inv w st db tr db' c :
  loop_body w st db = (tr, db', Ok c) ->
  (db' = db /\ (c = Continue st \/ c = Continue (escalate st))
   /\ exists l, tr = Request page_size (after st) :: l /\ Forall is_local l)
  \/ exists data errors tr1 pg tr2,
       fetch w = Response 200 (Some data)
       /\ dict_get data "errors" JNull = Ok errors
       /\ truthy errors = false
       /\ read_page w data db = (tr1, db, Ok pg)
       /\ commit_page w st pg db = (tr2, db', Ok c)
       /\ tr = Request page_size (after st) :: tr1 ++ tr2.
Proof.
  unfold loop_body. rewrite bind_emit.
  destruct (fetch w) as [|code body] eqn:Hf.
  { intros [= <- <- <-]. left. split; [reflexivity|]. split; [auto|].
    eexists. split; [reflexivity|]. repeat constructor. }
  destruct (negb (code =? 200)) eqn:Hcode.
  { destruct (retryable_status code); intros [= <- <- <-]; left;
      (split; [reflexivity|]); (split; [auto|]);
      eexists; (split; [reflexivity|]); repeat constructor. }
  apply negb_false_iff, Z.eqb_eq in Hcode. subst code.
  rewrite bind_lift. destruct body as [data|]; [|discriminate]. cbn [resp_json].
  rewrite bind_lift. destruct (dict_get data "errors" JNull) as [errors|] eqn:He;
    [|discriminate].
  destruct (truthy errors) eqn:Ht.
  { intros [= <- <- <-]. left. split; [reflexivity|]. split; [auto|].
    eexists. split; [reflexivity|]. repeat constructor. }
  destruct (process_page w st data db) as [[tr0 db0] r0] eqn:Hp.
  intros [= <- <- ->]. right.
  apply bind_inv_ok in Hp as (tr1 & db1 & pg & tr2 & Hread & Hcommit & ->).
  pose proof (read_page_keeps w data db) as Hk. rewrite Hread in Hk. simpl in Hk.
  subst db1. exists data, errors, tr1, pg, tr2. repeat split; assumption.
Qed.

(** Induction over the passes of a run that does not raise. *)
Lemma crawl_ok_ind (R : locals -> database -> list event -> locals -> database -> Prop) :
  (forall st db, R st db [] st db) ->
  (forall st db tr1 st1 db1 tr2 st2 db2,
      R st db tr1 st1 db1 -> R st1 db1 tr2 st2 db2 -> R st db (tr1 ++ tr2) st2 db2) ->
  (forall w st db tr db' c,
      loop_body w st db = (tr, db', Ok c) -> R st db tr (state_of c) db') ->
  forall ws st db tr db' out,
    crawl ws st db = (tr, db', Ok out) -> R st db tr (final out) db'.
Proof.
  intros Hrefl Htrans Hpass ws.
  induction ws as [|w ws IH]; intros st db tr db' out Hrun; simpl in Hrun.
  - destruct (fetched st <? total args); injection Hrun as <- <- <-; apply Hrefl.
  - destruct (fetched st <? total args); [|injection Hrun as <- <- <-; apply Hrefl].
    apply bind_inv_ok in Hrun as (tr1 & db1 & c & tr2 & Hbody & Hrest & ->).
    apply Hpass in Hbody. destruct c as [st1|st1].
    + eapply Htrans; [exact Hbody|]. apply IH. exact Hrest.
    + injection Hrest as <- <- <-. rewrite app_nil_r. exact Hbody.
Qed.

Lemma main_run t ws db :
  truthy (JStr t) = true ->
  main (Some t) ws db
  = crawl ws {| fetched := 0;
                after := stored_cursor db (checkpoint_key args);
                backoff_base := 1 |} db.
Proof.
  intros Ht. unfold main. rewrite Ht. cbn [negb].
  unfold read_checkpoint. rewrite bind_assoc.
  unfold bind at 1, get_db. rewrite bind_ret.
  fold (stored_cursor db (checkpoint_key args)).
  destruct (crawl ws _ db) as [[tr db'] r]. reflexivity.
Qed.

Lemma main_ok_inv token ws db tr db' out :
  main token ws db = (tr, db', Ok out) ->
  exists t, token = Some t /\ truthy (JStr t) = true
            /\ crawl ws {| fetched := 0;
                           after := stored_cursor db (checkpoint_key args);
                           backoff_base := 1 |} db = (tr, db', Ok out).
Proof.
  destruct token as [t|]; [|discriminate].
  destruct (truthy (JStr t)) eqn:Ht.
  - rewrite (main_run t ws db Ht). intros Hrun. exists t. auto.
  - unfold main. rewrite Ht. discriminate.
Qed.

Lemma stored_cursor_upsert day now batch db dbu key :
  upsert_tables day now batch db = Some dbu ->
  stored_cursor dbu key = stored_cursor db key.
Proof.
  intros Hup. unfold stored_cursor.
  rewrite (upsert_tables_checkpoints _ _ _ _ _ Hup). reflexivity.
Qed.

Lemma commit_page_cursor w st pg db tr db' c :
  commit_page w st pg db = (tr, db', Ok c) ->
  after st = stored_cursor db (checkpoint_key args) ->
  after (state_of c) = stored_cursor db' (checkpoint_key args).
Proof.
  rewrite commit_page_run. unfold finish_page.
  destruct (rows pg) as [|r0 rs]; [intros [= <- <- <-]; auto|].
  destruct (upsert_tables _ _ _ _) as [dbu|] eqn:Hup; [|discriminate].
  cbv zeta. destruct (upsert_commits w); [|discriminate].
  pose proof (stored_cursor_upsert _ _ _ _ _ (checkpoint_key args) Hup) as Hsame.
  destruct (truthy (endCursor pg)); [destruct (checkpoint_commits w); [|discriminate]|];
    (destruct (negb (truthy (has_next pg)));
     [|destruct (py_lt (remaining pg) 1000) as [[|]|]; try discriminate]);
    intros [= <- <- <-] Hsync; cbn [state_of after];
    first [ unfold stored_cursor; cbn [crawl_checkpoints];
            rewrite lookup_insert_eq; reflexivity
          | congruence ].
Qed.

Lemma committed_rows_app (tr1 tr2 : list event) :
  committed_rows (tr1 ++ tr2) = committed_rows tr1 + committed_rows tr2.
Proof.
  induction tr1 as [|e tr1 IH]; [reflexivity|].
  destruct e; simpl; rewrite IH; lia.
Qed.

Lemma committed_rows_local (l : list event) :
  Forall is_local l -> committed_rows l = 0.
Proof.
  induction 1 as [|e l He _ IH]; [reflexivity|].
  destruct e; simpl in He; try contradiction; exact IH.
Qed.

Lemma commit_page_count w st pg db tr db' c :
  commit_page w st pg db = (tr, db', Ok c) ->
  fetched (state_of c) = fetched st + committed_rows tr.
Proof.
  rewrite commit_page_run. unfold finish_page.
  destruct (rows pg) as [|r0 rs]; [intros [= <- <- <-]; simpl; lia|].
  destruct (upsert_tables _ _ _ _) as [dbu|]; [|discriminate].
  cbv zeta. destruct (upsert_commits w); [|discriminate].
  destruct (truthy (endCursor pg)); [destruct (checkpoint_commits w); [|discriminate]|];
    (destruct (negb (truthy (has_next pg)));
     [|destruct (py_lt (remaining pg) 1000) as [[|]|]; try discriminate]);
    intros [= <- <- <-]; rewrite ?committed_rows_app;
    cbn [state_of fetched committed_rows length]; lia.
Qed.

Lemma escalate_in_range (st : locals) :
  backoff_in_range st -> backoff_in_range (escalate st).
Proof.
  unfold backoff_in_range, escalate. cbn [backoff_base]. intros [H1 H60].
  destruct (Q.min_spec (backoff_base st * 2) 60) as [[Hlt ->]|[Hle ->]]; lra.
Qed.

Lemma commit_page_backoff w st pg db tr db' c :
  commit_page w st pg db = (tr, db', Ok c) ->
  backoff_in_range st -> backoff_in_range (state_of c).
Proof.
  rewrite commit_page_run. unfold finish_page.
  destruct (rows pg) as [|r0 rs]; [intros [= <- <- <-]; auto|].
  destruct (upsert_tables _ _ _ _) as [dbu|]; [|discriminate].
  cbv zeta. destruct (upsert_commits w); [|discriminate].
  destruct (truthy (endCursor pg)); [destruct (checkpoint_commits w); [|discriminate]|];
    (destruct (negb (truthy (has_next pg)));
     [|destruct (py_lt (remaining pg) 1000) as [[|]|]; try discriminate]);
    intros [= <- <- <-] _; unfold backoff_in_range; cbn [state_of backoff_base]; lra.
Qed.

(** X3: a run started by [main] that does not raise ends with its
    cursor equal to the checkpoint stored in the database, so that a new
    run of [main] on that database sends its first request with that
    cursor: it resumes where the run before stopped. *)
Theorem restart_resumes (token : option string) (ws ws' : list world) (w : world)
    (db : database) (tr : list event) (db' : database) (out : outcome) :
  main token ws db = (tr, db', Ok out) ->
  0 < total args ->
  after (final out) = stored_cursor db' (checkpoint_key args)
  /\ exists tail,
      (main token (w :: ws') db').1.1
      = Request page_size (after (final out)) :: tail.
Proof.
  intros Hrun Htotal.
  apply main_ok_inv in Hrun as (t & -> & Ht & Hrun).
  assert (Hsync : after (final out) = stored_cursor db' (checkpoint_key args)).
  { refine (crawl_ok_ind
              (fun st db _ st' db' =>
                 after st = stored_cursor db (checkpoint_key args) ->
                 after st' = stored_cursor db' (checkpoint_key args))
              _ _ _ ws _ db tr db' out Hrun eq_refl).
    - auto.
    - auto.
    - intros w0 st db0 tr0 db0' c Hbody Hs.
      apply loop_body_ok_inv in Hbody
        as [(-> & [->| ->] & _)
           |(data & errors & tr1 & pg & tr2 & _ & _ & _ & _ & Hcommit & _)];
        [exact Hs|exact Hs|].
      exact (commit_page_cursor _ _ _ _ _ _ _ Hcommit Hs). }
  split; [exact Hsync|].
  rewrite (main_run t _ db' Ht), <- Hsync.
  rewrite crawl_cons by (cbn [fetched]; exact Htotal).
  destruct (bind_trace_prefix
              (loop_body w {| fetched := 0; after := after (final out); backoff_base := 1 |})
              (fun c => match c with
                        | Continue st' => crawl ws' st'
                        | Break st' => ret (Done st')
                        end) db') as [tail1 Htail1].
  destruct (loop_body_head w {| fetched := 0; after := after (final out);
                                backoff_base := 1 |} db') as [tail2 Htail2].
  rewrite Htail2 in Htail1. cbn [after] in Htail1.
  rewrite Htail1. eexists. reflexivity.
Qed.

(** X5: when [main] ends without raising, the count it reports in
    [fetched] is the number of rows of the batches it committed. *)
Theorem fetched_counts_commits (token : option string) (ws : list world)
    (db : database) (tr : list event) (db' : database) (out : outcome) :
  main token ws db = (tr, db', Ok out) ->
  fetched (final out) = committed_rows tr.
Proof.
  intros Hrun. apply main_ok_inv in Hrun as (t & _ & _ & Hrun).
  change (committed_rows tr)
    with (fetched {| fetched := 0;
                     after := stored_cursor db (checkpoint_key args);
                     backoff_base := 1 |} + committed_rows tr).
  refine (crawl_ok_ind
            (fun st _ tr0 st' _ => fetched st' = fetched st + committed_rows tr0)
            _ _ _ ws _ db tr db' out Hrun).
  - intros st _. simpl. lia.
  - intros st _ tr1 st1 _ tr2 st2 _ H1 H2. rewrite committed_rows_app. lia.
  - intros w st db0 tr0 db0' c Hbody.
    apply loop_body_ok_inv in Hbody
      as [(_ & Hc & l & -> & Hl)
         |(data & errors & tr1 & pg & tr2 & _ & _ & _ & Hread & Hcommit & ->)].
    + cbn [committed_rows]. rewrite (committed_rows_local l Hl).
      destruct Hc as [->| ->]; simpl; lia.
    + cbn [committed_rows]. rewrite committed_rows_app.
      pose proof (read_page_local w data db0) as Hloc. rewrite Hread in Hloc.
      rewrite (committed_rows_local tr1 Hloc).
      rewrite (commit_page_count _ _ _ _ _ _ _ Hcommit). lia.
Qed.

(** X12: in every state a run of [main] reaches the backoff lies between
    1 and 60, whatever failures and pages came before; so the sleep after
    a retryable failure is at least 1 and less than 60.3. *)
Theorem backoff_sleep_bounded (token : option string) (ws : list world) (w : world)
    (db : database) (tr : list event) (db' : database) (out : outcome) :
  main token ws db = (tr, db', Ok out) ->
  retryable (fetch w) = true ->
  (0 <= random1 w /\ random1 w < 1)%Q ->
  exists delay,
    loop_body w (final out) db'
    = ([Request page_size (after (final out)); Stdout (failure_message (fetch w));
        Sleep delay], db', Ok (Continue (escalate (final out))))
    /\ (1 <= delay /\ delay < 60 + (3 # 10))%Q
    /\ (1 <= backoff_base (final out) /\ backoff_base (final out) <= 60)%Q.
Proof.
  intros Hrun Hw [Hr0 Hr1]. apply main_ok_inv in Hrun as (t & _ & _ & Hrun).
  assert (Hrange : backoff_in_range (final out)).
  { refine (crawl_ok_ind
              (fun st _ _ st' _ => backoff_in_range st -> backoff_in_range st')
              _ _ _ ws _ db tr db' out Hrun _).
    - auto.
    - auto.
    - intros w0 st db0 tr0 db0' c Hbody Hs.
      apply loop_body_ok_inv in Hbody
        as [(_ & [->| ->] & _)
           |(data & errors & tr1 & pg & tr2 & _ & _ & _ & _ & Hcommit & _)].
      + exact Hs.
      + apply escalate_in_range. exact Hs.
      + exact (commit_page_backoff _ _ _ _ _ _ _ Hcommit Hs).
    - unfold backoff_in_range. cbn [backoff_base]. lra. }
  eexists. split; [apply loop_body_retryable; exact Hw|].
  destruct Hrange as [H1 H60]. split; [lra|lra].
Qed.

(** X7: failed requests alone never end a run: over any list of network
    errors and non-200 answers the loop keeps asking for the next pass, with
    the count, the cursor and the database as they were, and nothing
    committed. *)
Theorem failures_never_end_run (ws : list world) (st : locals) (db : database) :
  Forall (fun w => failed (fetch w) = true) ws ->
  fetched st < total args ->
  exists tr st',
    crawl ws st db = (tr, db, Ok (Starved st'))
    /\ fetched st' = fetched st
    /\ after st' = after st
    /\ committed_rows tr = 0
    /\ length (List.filter (fun e => match e with Request _ _ => true | _ => false end) tr)
       = length ws.
Proof.
  intros Hall. revert st. induction Hall as [|w ws Hw _ IH]; intros st Hlt.
  - exists [], st. simpl. apply Z.ltb_lt in Hlt. rewrite Hlt. auto.
  - rewrite crawl_cons by exact Hlt.
    destruct (failed_cases _ Hw) as [Hr|Hc].
    + destruct (IH (escalate st) Hlt) as (tr & st' & Hrun & Hf & Ha & Hn & Hlen).
      rewrite (bind_run _ _ _ _ _ _ (loop_body_retryable w st db Hr)), Hrun.
      eexists _, st'. split; [reflexivity|]. simpl. rewrite Hlen. auto.
    + destruct (IH st Hlt) as (tr & st' & Hrun & Hf & Ha & Hn & Hlen).
      rewrite (bind_run _ _ _ _ _ _ (loop_body_client_error w st db Hc)), Hrun.
      eexists _, st'. split; [reflexivity|]. simpl. rewrite Hlen. auto.
Qed.

(** ** What a run does to the tables *)

Lemma extends_refl key db : extends key db db.
Proof. repeat split; auto. Qed.

Lemma extends_trans key db1 db2 db3 :
  extends key db1 db2 -> extends key db2 db3 -> extends key db1 db3.
Proof.
  intros (Hr1 & Hh1 & Hc1) (Hr2 & Hh2 & Hc2). split; [set_solver|]. split; [set_solver|].
  intros k Hk. rewrite (Hc2 k Hk). apply Hc1. exact Hk.
Qed.

Lemma grows_bind {A B} key (m : M A) (f : A -> M B) :
  grows key m -> (forall x, grows key (f x)) -> grows key (bind m f).
Proof.
  intros Hm Hf db. unfold bind. specialize (Hm db).
  destruct (m db) as [[tr db1] [x|e]]; [|exact Hm].
  specialize (Hf x db1). destruct (f x db1) as [[tr' db2] r].
  simpl in *. eapply extends_trans; eassumption.
Qed.

Lemma grows_keeps {A} key (m : M A) : keeps_db m -> grows key m.
Proof. intros Hm db. rewrite Hm. apply extends_refl. Qed.

Lemma dom_upsert_all_subseteq `{Countable K} {V} (tuples : list (K * V)) (t : gmap K V) :
  dom t ⊆ dom (upsert_all tuples t).
Proof.
  intros k. rewrite !elem_of_dom, lookup_upsert_all.
  destruct (latest k tuples); [eauto|auto].
Qed.

Lemma grows_upsert key w batch : grows key (upsert_repos_and_snapshots w batch).
Proof.
  intros db. rewrite upsert_repos_and_snapshots_run.
  destruct batch as [|r0 rs]; [apply extends_refl|].
  rewrite upsert_tables_spec. destruct (_ && _); [|apply extends_refl].
  destruct (upsert_commits w); [|apply extends_refl].
  split; [apply dom_upsert_all_subseteq|]. split; [apply dom_upsert_all_subseteq|].
  reflexivity.
Qed.

Lemma grows_write_checkpoint key w value : grows key (write_checkpoint w key value).
Proof.
  intros db. rewrite write_checkpoint_run.
  destruct (checkpoint_commits w); [|apply extends_refl].
  split; [reflexivity|]. split; [reflexivity|].
  intros k Hk. simpl. apply lookup_insert_ne. congruence.
Qed.

Lemma grows_commit_page w st pg : grows (checkpoint_key args) (commit_page w st pg).
Proof.
  unfold commit_page, print, sleep, safe_sleep.
  destruct (rows pg) as [|r0 rs]; [apply grows_keeps; effects|].
  apply grows_bind; [apply grows_upsert|]. intros _.
  apply grows_bind; [apply grows_keeps; effects|]. intros _.
  apply grows_bind.
  - destruct (truthy (endCursor pg)); [|apply grows_keeps; effects].
    apply grows_bind; [apply grows_write_checkpoint|]. intros _.
    apply grows_keeps. effects.
  - intros cursor. apply grows_keeps. effects.
Qed.

Lemma grows_loop_body w st : grows (checkpoint_key args) (loop_body w st).
Proof.
  unfold loop_body, print, sleep, safe_sleep.
  apply grows_bind; [apply grows_keeps; effects|]. intros _.
  destruct (fetch w) as [|code body]; [apply grows_keeps; effects|].
  destruct (negb (code =? 200)); [apply grows_keeps; effects|].
  apply grows_bind; [apply grows_keeps; effects|]. intros data.
  apply grows_bind; [apply grows_keeps; effects|]. intros errors.
  destruct (truthy errors); [apply grows_keeps; effects|].
  unfold process_page. apply grows_bind.
  - apply grows_keeps. apply read_page_keeps.
  - intros pg. apply grows_commit_page.
Qed.

Lemma grows_crawl ws st : grows (checkpoint_key args) (crawl ws st).
Proof.
  revert st. induction ws as [|w ws IH]; intros st; simpl.
  - destruct (fetched st <? total args); apply grows_keeps; effects.
  - destruct (fetched st <? total args); [|apply grows_keeps; effects].
    apply grows_bind; [apply grows_loop_body|].
    intros [st'|st']; [apply IH|apply grows_keeps; effects].
Qed.

(** X6: however a run of [main] ends, also with an exception, it has
    deleted no row of the catalog and no snapshot, and it has left the
    checkpoint of every key other than its own as it found it. *)
Theorem run_extends (token : option string) (ws : list world) (db : database) :
  dom (repos db) ⊆ dom (repos (main token ws db).1.2)
  /\ dom (repo_stars_history db) ⊆ dom (repo_stars_history (main token ws db).1.2)
  /\ forall k, k <> checkpoint_key args ->
               crawl_checkpoints (main token ws db).1.2 !! k = crawl_checkpoints db !! k.
Proof.
  change (extends (checkpoint_key args) db (main token ws db).1.2).
  revert db. change (grows (checkpoint_key args) (main token ws)).
  unfold main. destruct token as [t|]; [|apply grows_keeps; intros db; reflexivity].
  destruct (negb (truthy (JStr t))); [apply grows_keeps; intros db; reflexivity|].
  apply grows_bind.
  - apply grows_keeps. unfold read_checkpoint. effects. intros db. reflexivity.
  - intros cursor. apply grows_crawl.
Qed.

(** X8: a batch that is ingested changes only the catalog rows of its
    own identifiers and only today's snapshots of those identifiers: every
    other row, the snapshots of every other day and the checkpoints stay as
    they were; and each identifier of the batch has a catalog row and a
    snapshot for today afterwards. *)
Theorem ingestion_is_local (w : world) (batch : list row) (db : database)
    (tr : list event) (db' : database) :
  upsert_repos_and_snapshots w batch db = (tr, db', Ok tt) ->
  (forall id, id ∉ map repo_id batch -> repos db' !! id = repos db !! id)
  /\ (forall id day, id ∉ map repo_id batch \/ day <> today w ->
        repo_stars_history db' !! (id, day) = repo_stars_history db !! (id, day))
  /\ crawl_checkpoints db' = crawl_checkpoints db
  /\ (forall id, id ∈ map repo_id batch ->
        is_Some (repos db' !! id) /\ is_Some (repo_stars_history db' !! (id, today w))).
Proof.
  rewrite upsert_repos_and_snapshots_run.
  destruct batch as [|r0 rs].
  { intros [= <- <-]. repeat split; try reflexivity;
      match goal with H : _ ∈ map repo_id [] |- _ => apply elem_of_nil in H; contradiction end. }
  remember (r0 :: rs) as batch eqn:Hbatch. clear Hbatch.
  rewrite upsert_tables_spec. destruct (_ && _); [|discriminate].
  destruct (upsert_commits w); [|discriminate].
  intros [= <- <-]. cbn [repos repo_stars_history crawl_checkpoints].
  assert (Hkeys1 : map fst (repo_values (now_utc w) batch) = map repo_id batch).
  { unfold repo_values. rewrite map_map. reflexivity. }
  assert (Hkeys2 : map fst (snapshot_values (today w) batch)
                   = map (fun r => (repo_id r, today w)) batch).
  { unfold snapshot_values. rewrite map_map. reflexivity. }
  split; [|split; [|split; [reflexivity|]]].
  - intros id Hid. rewrite lookup_upsert_all.
    rewrite <- Hkeys1 in Hid. apply latest_None in Hid. rewrite Hid. reflexivity.
  - intros id day Hid. rewrite lookup_upsert_all.
    assert (Hnot : (id, day) ∉ map fst (snapshot_values (today w) batch)).
    { rewrite Hkeys2. intros Hin. apply list_elem_of_fmap in Hin as (r & [= -> ->] & Hr).
      destruct Hid as [Hid|Hday]; [|congruence].
      apply Hid. apply list_elem_of_fmap. eauto. }
    apply latest_None in Hnot. rewrite Hnot. reflexivity.
  - intros id Hid. rewrite !lookup_upsert_all. split.
    + destruct (latest id (repo_values (now_utc w) batch)) eqn:Hl; [eauto|].
      apply latest_None in Hl. rewrite Hkeys1 in Hl. contradiction.
    + destruct (latest (id, today w) (snapshot_values (today w) batch)) eqn:Hl; [eauto|].
      apply latest_None in Hl. rewrite Hkeys2 in Hl. exfalso. apply Hl.
      apply list_elem_of_fmap in Hid as (r & -> & Hr).
      apply list_elem_of_fmap. eauto.
Qed.

(** ** Exceptions *)














(** ** The pause between pages *)

Lemma sleeps_app (tr1 tr2 : list event) : sleeps (tr1 ++ tr2) = sleeps tr1 ++ sleeps tr2.
Proof.
  induction tr1 as [|e tr1 IH]; [reflexivity|].
  destruct e; simpl; rewrite IH; reflexivity.
Qed.

Lemma sleeps_prints (tr : list event) : Forall is_print tr -> sleeps tr = [].
Proof.
  induction 1 as [|e tr He _ IH]; [reflexivity|].
  destruct e; simpl in He; try contradiction; exact IH.
Qed.

Lemma read_page_high_quota w data d rl z :
  dict_get data "data" (JObj []) = Ok d ->
  dict_get d "rateLimit" (JObj []) = Ok rl ->
  dict_get rl "remaining" (JInt 5000) = Ok (JInt z) ->
  500 <= z ->
  emits is_print (read_page w data).
Proof.
  intros Hd Hrl Hrem Hz. unfold read_page.
  apply emits_bind_lift. intros d' Hd'. rewrite Hd in Hd'. injection Hd' as <-.
  apply emits_bind_lift. intros rl' Hrl'. rewrite Hrl in Hrl'. injection Hrl' as <-.
  apply emits_bind_lift. intros rem Hrem'. rewrite Hrem in Hrem'. injection Hrem' as <-.
  apply emits_bind_lift. simpl. intros low [= <-].
  replace (z <? 500) with false by (symmetry; apply Z.ltb_ge; exact Hz).
  repeat first [ apply parse_nodes_prints | step_effect ].
Qed.

(** X11: on a successful page whose remaining quota is an integer of at
    least 500 the governor does not wait; the pass sleeps only if it goes
    on to a next page with a quota below 1000, and then once, for 0.5
    seconds plus jitter. A pass that leaves the loop or raises does not
    sleep. *)
Theorem pause_tiers (w : world) (st : locals) (db : database)
    (data errors d rl : json) (z : Z) :
  fetch w = Response 200 (Some data) ->
  dict_get data "errors" JNull = Ok errors ->
  truthy errors = false ->
  dict_get data "data" (JObj []) = Ok d ->
  dict_get d "rateLimit" (JObj []) = Ok rl ->
  dict_get rl "remaining" (JInt 5000) = Ok (JInt z) ->
  500 <= z ->
  sleeps (loop_body w st db).1.1
  = match (loop_body w st db).2 with
    | Ok (Continue _) =>
        if z <? 1000 then [((1 # 2) + random2 w * (3 # 10))%Q] else []
    | _ => []
    end.
Proof.
  intros Hf He Ht Hd Hrl Hrem Hz.
  rewrite (loop_body_page _ _ _ _ _ Hf He Ht).
  unfold process_page, bind.
  pose proof (read_page_high_quota w data d rl z Hd Hrl Hrem Hz db) as Hprints.
  destruct (read_page w data db) as [[tr1 db1] [pg|e]] eqn:Hread; simpl in Hprints.
  - assert (Hpg : remaining pg = JInt z).
    { apply read_page_inv in Hread
        as (d' & rl' & low & _ & _ & _ & _ & _ & _ & Hd' & Hrl' & Hrem' & _).
      rewrite Hd in Hd'. injection Hd' as <-. rewrite Hrl in Hrl'. injection Hrl' as <-.
      congruence. }
    rewrite commit_page_run. unfold finish_page. rewrite Hpg. cbn [py_lt].
    repeat case_match; simplify_eq/=;
      rewrite ?sleeps_app, (sleeps_prints tr1 Hprints); reflexivity.
  - simpl. apply sleeps_prints. exact Hprints.
Qed.

End Crawler.

(** ** Instances on the sample inputs *)

(** C1, as stated, fails: a 404 is followed by a second request with the
    same cursor, and the run ends normally. *)
Lemma client_error_counterexample :
  client_error (Response 404 None) = true
  /\ main sample_fromisoformat sample_int_of_str sample_repr sample_args
       (Some "ghp_token")
       [sample_world (Response 404 None);
        sample_world (Response 200 (Some (sample_data [] [] false JNull)))]
       empty_db
     = ([Request 100 JNull; Stdout (HttpMsg 404); Sleep 2;
         Request 100 JNull; Stdout NoNodesMsg],
        empty_db, Ok (Done start)).
Proof. split; reflexivity. Qed.

Lemma client_error_retried_witness :
  client_error (fetch (sample_world (Response 404 None))) = true
  /\ crawl sample_fromisoformat sample_int_of_str sample_repr sample_args
       [sample_world (Response 404 None)] start empty_db
     = ([Request 100 JNull; Stdout (HttpMsg 404); Sleep 2], empty_db, Ok (Starved start)).
Proof.
  split; [reflexivity|].
  apply (client_error_retried sample_fromisoformat sample_int_of_str sample_repr
           sample_args (sample_world (Response 404 None)) [] start empty_db);
    reflexivity.
Defined.

Lemma backoff_growth_and_reset_witness :
  exists tr st' delay,
    crawl sample_fromisoformat sample_int_of_str sample_repr sample_args
      [sample_world NetworkError; sample_world (Response 503 None)] start empty_db
    = (tr, empty_db, Ok (Starved st'))
    /\ loop_body sample_fromisoformat sample_int_of_str sample_repr sample_args
         (sample_world (Response 429 None)) st' empty_db
       = ([Request 100 JNull; Stdout (HttpMsg 429); Sleep delay],
          empty_db, Ok (Continue (escalate st')))
    /\ (delay == 4 + (1 # 2) * (3 # 10))%Q.
Proof.
  destruct (backoff_growth_and_reset sample_fromisoformat sample_int_of_str sample_repr
              sample_args 2 [sample_world NetworkError; sample_world (Response 503 None)]
              (sample_world (Response 429 None)) start empty_db)
    as (tr & st' & delay & Hrun & Hnext & Hdelay & _);
    [reflexivity | repeat constructor | reflexivity | reflexivity | reflexivity
    | split; [discriminate | reflexivity] | ].
  exists tr, st', delay. split; [exact Hrun|]. split; [exact Hnext|].
  rewrite Hdelay. reflexivity.
Defined.



(** C5, as stated, fails: a second ingestion one minute later rewrites
    the two crawl timestamps of the catalog row, so the catalog rows are
    not the same as after one run. *)
Lemma ingestion_repeated_counterexample :
  let batch := [sample_row 11 "octocat" "hello"] in
  let once := upsert_repos_and_snapshots (sample_world NetworkError) batch empty_db in
  let twice := upsert_repos_and_snapshots later_world batch once.1.2 in
  once.2 = Ok tt /\ twice.2 = Ok tt
  /\ last_crawled_at <$> repos once.1.2 !! 11 = Some 1704067100%Q
  /\ last_crawled_at <$> repos twice.1.2 !! 11 = Some 1704067160%Q
  /\ repos twice.1.2 <> repos once.1.2.
Proof.
  cbv zeta. repeat split; try reflexivity.
  intros Heq. apply (f_equal (fun t => last_crawled_at <$> t !! 11)) in Heq.
  vm_compute in Heq. discriminate.
Qed.

Lemma ingestion_repeated_witness :
  let batch := [sample_row 11 "octocat" "hello"] in
  let once := upsert_repos_and_snapshots (sample_world NetworkError) batch empty_db in
  exists db2,
    upsert_repos_and_snapshots later_world batch once.1.2
    = ([UpsertCommit batch], db2, Ok tt)
    /\ repo_stars_history db2 = repo_stars_history once.1.2
    /\ size (repos db2) = size (repos once.1.2)
    /\ node <$> repos db2 !! 11 = Some (sample_row 11 "octocat" "hello").
Proof.
  intros batch once.
  destruct (ingestion_repeated (sample_world NetworkError) later_world batch empty_db
              [UpsertCommit batch] once.1.2)
    as (db2 & Hrun & Hhist & _ & _ & Hsize & Hnode & _);
    [reflexivity | reflexivity | reflexivity | ].
  exists db2. split; [exact Hrun|]. split; [exact Hhist|]. split; [exact Hsize|].
  rewrite Hnode. reflexivity.
Defined.

Lemma malformed_entry_tolerated_witness :
  exists rows db',
    parse_nodes sample_int_of_str sample_repr
      ([sample_node (JInt 11) "octocat" "hello"]
         ++ sample_node JNull "ghost" "gone" :: [sample_node (JInt 12) "octocat" "world"])
      [] empty_db
    = ([Stdout (MissingDatabaseIdMsg (JStr "MDEwOlJlcG9zaXRvcnk="))], empty_db, Ok rows)
    /\ length rows = 2%nat
    /\ map repo_id rows = [11; 12]
    /\ upsert_repos_and_snapshots (sample_world NetworkError) rows empty_db
       = (match rows with [] => [] | _ => [UpsertCommit rows] end, db', Ok tt).
Proof.
  destruct (malformed_entry_tolerated sample_int_of_str sample_repr
              (sample_world NetworkError)
              [sample_node (JInt 11) "octocat" "hello"]
              [sample_node (JInt 12) "octocat" "world"]
              (sample_node JNull "ghost" "gone") empty_db)
    as (rows & db' & Hparse & Hlen & Hids & _ & Hup & _).
  - repeat constructor.
  - reflexivity.
  - simpl. apply NoDup_cons. split; [|apply NoDup_singleton].
    intros Hin%list_elem_of_singleton. discriminate.
  - reflexivity.
  - exists rows, db'. repeat split; assumption.
Defined.

Lemma zero_identifier_discarded_witness :
  let zero := [("id", JStr "R_0"); ("databaseId", JInt 0); ("name", JStr "gone")] in
  let null := [("id", JStr "R_0"); ("databaseId", JNull); ("name", JStr "gone")] in
  parse_node sample_int_of_str sample_repr (JObj zero) empty_db
  = ([Stdout (MissingDatabaseIdMsg (JStr "R_0"))], empty_db, Ok None)
  /\ parse_node sample_int_of_str sample_repr (JObj null) empty_db
     = parse_node sample_int_of_str sample_repr (JObj zero) empty_db
  /\ Forall (fun r => repo_id r <> 0) (rows sample_page).
Proof.
  intros zero null.
  apply (zero_identifier_discarded sample_fromisoformat sample_int_of_str sample_repr
           zero null (sample_world NetworkError) sample_page_data
           [sample_node (JInt 11) "octocat" "hello"; sample_node (JInt 0) "ghost" "gone"]
           empty_db
           [Stdout (MissingDatabaseIdMsg (JStr "MDEwOlJlcG9zaXRvcnk="))]
           empty_db sample_page).
  - intros k Hk. simpl.
    destruct (String.eqb_spec k "databaseId") as [->|_]; [contradiction|reflexivity].
  - reflexivity.
  - reflexivity.
  - discriminate.
  - reflexivity.
  - reflexivity.
  - repeat constructor.
  - reflexivity.
Defined.



Lemma missing_owner_or_name_kept_witness :
  exists r,
    parse_node sample_int_of_str sample_repr
      (JObj [("id", JStr "R_5"); ("databaseId", JInt 5)]) empty_db
    = ([], empty_db, Ok (Some r))
    /\ repo_id r = 5
    /\ owner r = JNull /\ name r = JNull
    /\ full_name r = "None/None".
Proof.
  destruct (missing_owner_or_name_kept sample_int_of_str sample_repr
              [("id", JStr "R_5"); ("databaseId", JInt 5)] 5 empty_db)
    as (r & Hrun & Hid & _ & Hname & Hfull & Howner & Hnone & _);
    [reflexivity | discriminate | reflexivity | reflexivity | ].
  exists r. split; [exact Hrun|]. split; [exact Hid|].
  specialize (Howner eq_refl). specialize (Hnone eq_refl).
  split; [exact Howner|]. split; [exact Hnone|].
  rewrite Hfull, Howner, Hnone. reflexivity.
Defined.

(** ** Instances of the further properties *)

Lemma restart_resumes_witness :
  let db' := (main sample_fromisoformat sample_int_of_str sample_repr sample_args
                (Some "ghp_token") sample_run empty_db).1.2 in
  stored_cursor db' "global_search_cursor" = JStr "Y3Vyc29yOjI="
  /\ exists tail,
      (main sample_fromisoformat sample_int_of_str sample_repr sample_args
         (Some "ghp_token") [sample_world NetworkError] db').1.1
      = Request 100 (JStr "Y3Vyc29yOjI=") :: tail.
Proof.
  intros db'.
  destruct (restart_resumes sample_fromisoformat sample_int_of_str sample_repr sample_args
              (Some "ghp_token") sample_run [] (sample_world NetworkError) empty_db
              (main sample_fromisoformat sample_int_of_str sample_repr sample_args
                 (Some "ghp_token") sample_run empty_db).1.1
              db' (Starved sample_end))
    as [Hsync Hfirst]; [reflexivity | reflexivity | ].
  split; [symmetry; exact Hsync | exact Hfirst].
Defined.

Lemma graphql_errors_retried_witness :
  crawl sample_fromisoformat sample_int_of_str sample_repr sample_args
    [sample_world (Response 200 (Some errors_data))] start empty_db
  = ([Request 100 JNull;
      Stdout (GraphQLErrorsMsg (JArr [JObj [("message", JStr "timeout")]]));
      Sleep (2 + (1 # 2) * (3 # 10))%Q],
     empty_db, Ok (Starved start)).
Proof.
  apply (graphql_errors_retried sample_fromisoformat sample_int_of_str sample_repr
           sample_args (sample_world (Response 200 (Some errors_data))) [] start empty_db
           errors_data (JArr [JObj [("message", JStr "timeout")]]));
    reflexivity.
Defined.

Lemma fetched_counts_commits_witness :
  committed_rows
    (main sample_fromisoformat sample_int_of_str sample_repr sample_args
       (Some "ghp_token") sample_run empty_db).1.1 = 1.
Proof.
  symmetry.
  apply (fetched_counts_commits sample_fromisoformat sample_int_of_str sample_repr
           sample_args (Some "ghp_token") sample_run empty_db _
           (main sample_fromisoformat sample_int_of_str sample_repr sample_args
              (Some "ghp_token") sample_run empty_db).1.2
           (Starved sample_end)).
  reflexivity.
Defined.

Lemma failures_never_end_run_witness :
  exists tr st',
    crawl sample_fromisoformat sample_int_of_str sample_repr sample_args
      [sample_world NetworkError; sample_world (Response 404 None)] start empty_db
    = (tr, empty_db, Ok (Starved st'))
    /\ fetched st' = 0 /\ after st' = JNull /\ committed_rows tr = 0.
Proof.
  destruct (failures_never_end_run sample_fromisoformat sample_int_of_str sample_repr
              sample_args [sample_world NetworkError; sample_world (Response 404 None)]
              start empty_db)
    as (tr & st' & Hrun & Hf & Ha & Hn & _); [repeat constructor | reflexivity | ].
  exists tr, st'. repeat split; assumption.
Defined.

Lemma ingestion_is_local_witness :
  let db' := (upsert_repos_and_snapshots (sample_world NetworkError)
                [sample_row 11 "octocat" "hello"] empty_db).1.2 in
  repos db' !! 12 = None
  /\ repo_stars_history db' !! (11, 19722) = None
  /\ is_Some (repos db' !! 11)
  /\ is_Some (repo_stars_history db' !! (11, 19723)).
Proof.
  intros db'.
  destruct (ingestion_is_local (sample_world NetworkError)
              [sample_row 11 "octocat" "hello"] empty_db
              [UpsertCommit [sample_row 11 "octocat" "hello"]] db' eq_refl)
    as (Hrows & Hhist & _ & Hin).
  split.
  { rewrite Hrows; [reflexivity|]. intros Hin'%list_elem_of_singleton. discriminate. }
  split.
  { rewrite Hhist; [reflexivity|]. right. discriminate. }
  apply Hin. apply list_elem_of_singleton. reflexivity.
Defined.

Lemma record_of_entry_witness :
  exists fields,
    sample_node (JInt 11) "octocat" "hello" = JObj fields
    /\ full_name (sample_row 11 "octocat" "hello") = "octocat/hello"
    /\ description (sample_row 11 "octocat" "hello") = field "description" fields
    /\ stargazerCount (sample_row 11 "octocat" "hello") = JInt 7.
Proof.
  destruct (record_of_entry sample_int_of_str sample_repr
              (sample_node (JInt 11) "octocat" "hello") empty_db [] empty_db
              (sample_row 11 "octocat" "hello") eq_refl)
    as (_ & _ & fields & Hn & _ & _ & _ & _ & _ & Hdesc & _ & Hfull & Hstars).
  exists fields. split; [exact Hn|]. split; [reflexivity|]. split; [exact Hdesc|].
  reflexivity.
Defined.

Lemma pause_tiers_witness :
  sleeps
    (loop_body sample_fromisoformat sample_int_of_str sample_repr sample_args
       (sample_world (Response 200 (Some mid_quota_data))) start empty_db).1.1
  = [((1 # 2) + (1 # 4) * (3 # 10))%Q].
Proof.
  rewrite (pause_tiers sample_fromisoformat sample_int_of_str sample_repr sample_args
             (sample_world (Response 200 (Some mid_quota_data))) start empty_db
             mid_quota_data JNull
             (JObj (sample_rateLimit 800 (JStr "2024-01-01T00:00:00Z") ++
                    [("search",
                      JObj [("repositoryCount", JInt 1000);
                            ("pageInfo", JObj [("hasNextPage", JBool true);
                                               ("endCursor", JStr "Y3Vyc29yOjI=")]);
                            ("nodes", JArr [sample_node (JInt 11) "octocat" "hello"])])]))
             (JObj [("limit", JInt 5000); ("cost", JInt 1); ("remaining", JInt 800);
                    ("resetAt", JStr "2024-01-01T00:00:00Z")])
             800);
    [reflexivity | reflexivity | reflexivity | reflexivity | reflexivity | reflexivity
    | reflexivity | discriminate].
Defined.

Lemma backoff_sleep_bounded_witness :
  exists delay,
    loop_body sample_fromisoformat sample_int_of_str sample_repr sample_args
      (sample_world (Response 503 None)) sample_end
      (main sample_fromisoformat sample_int_of_str sample_repr sample_args
         (Some "ghp_token") sample_run empty_db).1.2
    = ([Request 100 (JStr "Y3Vyc29yOjI="); Stdout (HttpMsg 503); Sleep delay],
       (main sample_fromisoformat sample_int_of_str sample_repr sample_args
          (Some "ghp_token") sample_run empty_db).1.2,
       Ok (Continue (escalate sample_end)))
    /\ (1 <= delay /\ delay < 60 + (3 # 10))%Q.
Proof.
  destruct (backoff_sleep_bounded sample_fromisoformat sample_int_of_str sample_repr
              sample_args (Some "ghp_token") sample_run (sample_world (Response 503 None))
              empty_db
              (main sample_fromisoformat sample_int_of_str sample_repr sample_args
                 (Some "ghp_token") sample_run empty_db).1.1
              (main sample_fromisoformat sample_int_of_str sample_repr sample_args
                 (Some "ghp_token") sample_run empty_db).1.2
              (Starved sample_end))
    as (delay & Hrun & Hdelay & _);
    [reflexivity | reflexivity | split; [discriminate | reflexivity] | ].
  exists delay. split; [exact Hrun | exact Hdelay].
Defined.
